(** * fty_shm: metric sharing through files of a shared directory

    A shallow embedding of [src/fty_shm.cc].  The file system is an explicit
    state ([world]): one directory, the files in it, a clock and an inode
    counter.  Every system call of the source is a function on that state;
    the functions of the source are written over them in the order of the
    source, with the source's names.

    - A [std::string] and a buffer are lists of bytes; a [const char*] is
      read up to its first NUL ([c_str]).
    - [int] results of 0 and -1 with [errno] are [result] and [status]; the
      [err] that the scans accumulate is an integer, 0 or -1.
    - [time_t] values are integers without overflow; [/] on them is [Z.quot].
    - The scans work on the names that [opendir] lists when it is called.
    - [fty_shm_cleanup] takes the other processes as a parameter
      ([interference]); [fty_shm_set_test_dir] and the self test are left
      out. *)

From Stdlib Require Import ZArith Ascii String List Lia.
From stdpp Require Import base option list gmap strings.
Import ListNotations.

(** ** Bytes and C strings *)

Abbreviation bytes := (list ascii).

Definition bytes_of (s : string) : bytes := list_ascii_of_string s.

Definition NUL : ascii := Ascii.zero.
Definition LF : ascii := ascii_of_nat 10.
Definition SP : ascii := ascii_of_nat 32.

Definition is_nul (c : ascii) : bool := Ascii.eqb c NUL.

(** The C string that starts at the beginning of [s]: the bytes before the
    first NUL. *)
Fixpoint c_str (s : bytes) : bytes :=
  match s with
  | [] => []
  | c :: s' => if is_nul c then [] else c :: c_str s'
  end.

Definition has_nul (s : bytes) : bool := existsb is_nul s.

(** What [strdup] or [std::string::operator=(const char* )] reads from a
    pointer into a buffer of which [s] is the rest: the bytes up to the first
    NUL when there is one ([Str]); when there is none the read runs past the
    end of the buffer, [Overrun] keeps the part that lies inside it. *)
Inductive c_string :=
  | Str (s : bytes)
  | Overrun (s : bytes).

Definition c_string_at (s : bytes) : c_string :=
  if has_nul s then Str (c_str s) else Overrun s.

(** [memchr (s, c, len) != NULL] with [len] the length of [s]. *)
Definition memchr (s : bytes) (c : ascii) : bool := existsb (Ascii.eqb c) s.

(** [strchr (s, c)] on a NUL-free [s]: the offset of the first [c]. *)
Fixpoint strchr (s : bytes) (c : ascii) : option nat :=
  match s with
  | [] => None
  | x :: s' => if Ascii.eqb x c then Some O else S <$> strchr s' c
  end.

Definition bytes_eqb (s t : bytes) : bool := bool_decide (s = t).

(** ** Constants of the record layout *)

Definition METRIC_SUFFIX : bytes := bytes_of ".metric".
Definition SUFFIX_LEN : nat := length METRIC_SUFFIX.

Definition TTL_LEN : nat := 10.
Definition UNIT_START : nat := TTL_LEN + 1.
Definition UNIT_LEN : nat := 10.
Definition PAYLOAD_START : nat := UNIT_START + UNIT_LEN + 1.
Definition PAYLOAD_LEN : nat := 128 - PAYLOAD_START.
(** [sizeof (buf)] in [write_value] and [read_value]. *)
Definition RECORD_LEN : nat := PAYLOAD_START + PAYLOAD_LEN.

(** ** Results *)

Inductive errno :=
  | ENOENT | EEXIST | EISDIR | EINVAL | ENAMETOOLONG | ERANGE | ESTALE | EIO.

Global Instance errno_eq_dec : EqDecision errno.
Proof. solve_decision. Defined.

(** A call that returns 0, or -1 with [errno] set. *)
Inductive result (A : Type) :=
  | Ok (a : A)
  | Err (e : errno).
Arguments Ok {A} a.
Arguments Err {A} e.

Definition is_ok {A} (r : result A) : bool :=
  match r with Ok _ => true | Err _ => false end.

(** The return value of a call that gives nothing else back. *)
Inductive status :=
  | Success
  | Failure (e : errno).

(** ** [strtol] in base 10, and [int] *)

Definition isspace (c : ascii) : bool :=
  let n := nat_of_ascii c in (n =? 32) || ((9 <=? n) && (n <=? 13)).

Definition isdigit (c : ascii) : bool :=
  let n := nat_of_ascii c in (48 <=? n) && (n <=? 57).

Definition digit_val (c : ascii) : Z := (Z.of_nat (nat_of_ascii c) - 48)%Z.

Fixpoint span (p : ascii -> bool) (s : bytes) : bytes * bytes :=
  match s with
  | [] => ([], [])
  | c :: s' => if p c then let '(a, r) := span p s' in (c :: a, r) else ([], s)
  end.

Definition decimal (ds : bytes) : Z :=
  fold_left (fun acc c => (10 * acc + digit_val c)%Z) ds 0%Z.

Definition LONG_MAX : Z := (2 ^ 63 - 1)%Z.
Definition LONG_MIN : Z := (- 2 ^ 63)%Z.

(** [strtol (s, &end, 10)] on the C string [s] (LP64): the value and
    [end - s].  White space is skipped, one sign is accepted, the digits
    that follow are converted; without a digit nothing is consumed. *)
Definition strtol (s : bytes) : Z * nat :=
  let '(ws, s1) := span isspace s in
  let '(neg, s2, sign_len) :=
    match s1 with
    | c :: r =>
        if Ascii.eqb c "-" then (true, r, 1)
        else if Ascii.eqb c "+" then (false, r, 1)
        else (false, s1, 0)
    | [] => (false, s1, 0)
    end in
  let '(ds, _) := span isdigit s2 in
  match ds with
  | [] => (0%Z, 0)
  | _ =>
      let v := if neg : bool then (- decimal ds)%Z else decimal ds in
      (Z.max LONG_MIN (Z.min LONG_MAX v), length ws + sign_len + length ds)
  end.

(** Conversion of a [long] to [int]: the low 32 bits, signed. *)
Definition to_int (z : Z) : Z := ((z + 2 ^ 31) mod 2 ^ 32 - 2 ^ 31)%Z.

(** ** The record codec *)

(** [parse_ttl]: [ttl_str] holds at least [TTL_LEN + 1] bytes. *)
Definition parse_ttl (ttl_str : bytes) : result Z :=
  let ttl_str := <[TTL_LEN := NUL]> ttl_str in
  let '(v, consumed) := strtol (c_str ttl_str) in
  let res := to_int v in
  if bool_decide (consumed ≠ TTL_LEN) then Err ERANGE else Ok res.

(** The loop of [write_value] that fills [buf[i]] for [i] from [n - 1] down
    to 0; [acc] is the part of the field already written.  The byte is
    ['0' + ttl % 10] with the remainder of C, which has the sign of [ttl]:
    from 39 to 57, below ['0'] when [ttl] is negative. *)
Fixpoint ttl_digits (n : nat) (ttl : Z) (acc : bytes) : bytes :=
  match n with
  | O => acc
  | S n' =>
      ttl_digits n' (Z.quot ttl 10)
        (ascii_of_nat (Z.to_nat (48 + Z.rem ttl 10)) :: acc)
  end.

(** [if (ttl < 0) ttl = 0;] *)
Definition clamp_ttl (ttl : Z) : Z := if (ttl <? 0)%Z then 0%Z else ttl.

(** The 128 bytes that [write_value] puts in [buf], for [value] and [unit]
    within the bounds it has checked. *)
Definition encode_record (value unit : bytes) (ttl : Z) : bytes :=
  let ttl := clamp_ttl ttl in
  ttl_digits TTL_LEN ttl [] ++ [LF]
  ++ unit ++ replicate (UNIT_LEN - length unit) SP ++ [LF]
  ++ value ++ replicate (PAYLOAD_LEN - length value) NUL.

Definition is_pad (c : ascii) : bool := Ascii.eqb c SP || Ascii.eqb c LF.

(** The trimming loop of [read_value], on absolute offsets: it looks at
    [buf[k - 1]] and steps back while that byte is a space or a newline.
    It starts at [k = UNIT_START + UNIT_LEN + 1] and stops at the latest on
    [buf[TTL_LEN]], which is NUL by then. *)
Fixpoint trim_end (buf : bytes) (k : nat) : nat :=
  match k with
  | O => O
  | S k' =>
      match buf !! k' with
      | Some c => if is_pad c then trim_end buf k' else k
      | None => k
      end
  end.

Definition read_unit (buf : bytes) : bytes :=
  let e := trim_end buf (UNIT_START + UNIT_LEN + 1) in
  c_str (take (e - UNIT_START) (drop UNIT_START buf)).

(** [unit_buf[i + 1] = '\0'], the write that ends the unit where the loop
    has stopped: inside the unit field or on its newline, or, when that
    newline is neither a space nor a newline, on the first byte of the
    payload. *)
Definition trim_unit (buf : bytes) : bytes :=
  <[trim_end buf (UNIT_START + UNIT_LEN + 1) := NUL]> buf.

(** ** The file system *)

Record file := File {
  st_dev : Z;
  st_ino : Z;
  st_mtime : Z;
  contents : bytes
}.

Global Instance file_eq_dec : EqDecision file.
Proof. solve_decision. Defined.

Definition st_size (f : file) : nat := length (contents f).

(** [root] is the directory [shm_dir], [None] when it does not exist.  File
    names are relative to it.  Hard links, permissions and I/O faults are not
    part of the model. *)
Record world := World {
  clock : Z;
  root_dev : Z;
  next_ino : Z;
  root : option (gmap bytes file)
}.

Definition set_root (w : world) (d : gmap bytes file) : world :=
  World (clock w) (root_dev w) (next_ino w) (Some d).

Definition set_clock (w : world) (t : Z) : world :=
  World t (root_dev w) (next_ino w) (root w).

Definition entry (w : world) (name : bytes) : option file :=
  root w ≫= (.!! name).

Definition DOT : bytes := bytes_of ".".
Definition DOTDOT : bytes := bytes_of "..".

(** Names that resolve to a directory: [shm_dir/], [shm_dir/.] and
    [shm_dir/..]. *)
Definition is_dir_name (name : bytes) : bool :=
  bytes_eqb name [] || bytes_eqb name DOT || bytes_eqb name DOTDOT.

(** [opendir] followed by the [readdir] calls: the names of the directory,
    in the order the file system gives them. *)
Definition opendir (w : world) : result (list bytes) :=
  match root w with
  | None => Err ENOENT
  | Some d => Ok (DOT :: DOTDOT :: (map_to_list d).*1)
  end.

(** [open (O_RDONLY)] with the [fstat] and [read] on the descriptor that
    follow it; on a directory it is the [read] that fails. *)
Definition open_rdonly (w : world) (name : bytes) : result file :=
  match root w with
  | None => Err ENOENT
  | Some d =>
      if is_dir_name name then Err EISDIR
      else match d !! name with
           | None => Err ENOENT
           | Some f => Ok f
           end
  end.

(** [open (O_CREAT | O_RDWR)]. *)
Definition open_creat (w : world) (name : bytes) : result world :=
  match root w with
  | None => Err ENOENT
  | Some d =>
      if is_dir_name name then Err EISDIR
      else match d !! name with
           | Some _ => Ok w
           | None =>
               Ok (World (clock w) (root_dev w) (next_ino w + 1)
                     (Some (<[name := File (root_dev w) (next_ino w) (clock w) []]> d)))
           end
  end.

(** [pwrite (fd, buf, len, 0)] on the file just opened under [name]. *)
Definition pwrite (w : world) (name : bytes) (buf : bytes) : world :=
  match root w with
  | None => w
  | Some d =>
      match d !! name with
      | None => w
      | Some f =>
          set_root w (<[name := File (st_dev f) (st_ino f) (clock w)
                                  (buf ++ drop (length buf) (contents f))]> d)
      end
  end.

(** [read] of [len] bytes at offset 0, as [read_buf] wraps it. *)
Definition read_buf (f : file) (len : nat) : result bytes :=
  if st_size f <? len then Err EIO else Ok (take len (contents f)).

Definition unlink (w : world) (name : bytes) : result world :=
  match root w with
  | None => Err ENOENT
  | Some d =>
      match d !! name with
      | None => Err ENOENT
      | Some _ => Ok (set_root w (delete name d))
      end
  end.

Definition renameat (w : world) (src dst : bytes) : result world :=
  match root w with
  | None => Err ENOENT
  | Some d =>
      match d !! src with
      | None => Err ENOENT
      | Some f => Ok (set_root w (<[dst := f]> (delete src d)))
      end
  end.

(** [renameat2 (RENAME_NOREPLACE)]. *)
Definition rename_noreplace (w : world) (src dst : bytes) : result world :=
  match root w with
  | None => Err ENOENT
  | Some d =>
      match d !! src with
      | None => Err ENOENT
      | Some f =>
          match d !! dst with
          | Some _ => Err EEXIST
          | None => Ok (set_root w (<[dst := f]> (delete src d)))
          end
      end
  end.

Definition fstatat (w : world) (name : bytes) : result file :=
  match entry w name with
  | None => Err ENOENT
  | Some f => Ok f
  end.

(** ** The program *)

Section Store.

(** [NAME_MAX] of [<limits.h>]. *)
Variable NAME_MAX : nat.

(** [prepare_filename]: the buffer is [shm_dir/asset:metric.metric] with its
    final NUL; the result is the name under [shm_dir] that the buffer holds
    as a C string. *)
Definition prepare_filename (asset metric : bytes) : result bytes :=
  if NAME_MAX <? length asset + length (bytes_of ":") + length metric + SUFFIX_LEN
  then Err ENAMETOOLONG
  else if memchr asset "/" || memchr asset ":"
          || memchr metric "/" || memchr metric ":"
  then Err EINVAL
  else Ok (c_str (asset ++ bytes_of ":" ++ metric ++ METRIC_SUFFIX)).

Definition write_value (w : world) (filename value unit : bytes) (ttl : Z)
  : status * world :=
  if PAYLOAD_LEN <? length value then (Failure EINVAL, w)
  else if UNIT_LEN <? length unit then (Failure EINVAL, w)
  else match open_creat w filename with
       | Err e => (Failure e, w)
       | Ok w' => (Success, pwrite w' filename (encode_record value unit ttl))
       end.

(** [read_value]: the value and, when [need_unit], the unit. *)
Definition read_value (w : world) (filename : bytes) (need_unit : bool)
  : result (c_string * option bytes) :=
  match open_rdonly w filename with
  | Err e => Err e
  | Ok st =>
      match read_buf st RECORD_LEN with
      | Err e => Err e
      | Ok buf =>
          let buf := <[TTL_LEN := NUL]> buf in
          match parse_ttl buf with
          | Err e => Err e
          | Ok ttl =>
              if bool_decide (ttl ≠ 0%Z) && (ttl <? clock w - st_mtime st)%Z
              then Err ESTALE
              else
                let unit := if need_unit then Some (read_unit buf) else None in
                let buf := if need_unit then trim_unit buf else buf in
                Ok (c_string_at (drop PAYLOAD_START buf), unit)
          end
      end
  end.

Definition write_metric (w : world) (asset metric value unit : bytes) (ttl : Z)
  : status * world :=
  match prepare_filename asset metric with
  | Err e => (Failure e, w)
  | Ok filename => write_value w filename value unit ttl
  end.

(** The two overloads of [fty::shm::read_metric], and the two uses of
    [fty_shm_read_metric] ([unit] null or not), differ in [need_unit]. *)
Definition read_metric (w : world) (asset metric : bytes) (need_unit : bool)
  : result (c_string * option bytes) :=
  match prepare_filename asset metric with
  | Err e => Err e
  | Ok filename => read_value w filename need_unit
  end.

(** The C entry points take C strings. *)
Definition fty_shm_write_metric (w : world) (asset metric value unit : bytes)
    (ttl : Z) : status * world :=
  write_metric w (c_str asset) (c_str metric) (c_str value) (c_str unit) ttl.

Definition fty_shm_read_metric (w : world) (asset metric : bytes)
    (need_unit : bool) : result (c_string * option bytes) :=
  read_metric w (c_str asset) (c_str metric) need_unit.

(** [strncmp (d_name + len - SUFFIX_LEN, METRIC_SUFFIX, SUFFIX_LEN) == 0],
    for [len >= SUFFIX_LEN]. *)
Definition has_metric_suffix (d_name : bytes) : bool :=
  bytes_eqb (drop (length d_name - SUFFIX_LEN) d_name) METRIC_SUFFIX.

(** *** delete_asset *)

Fixpoint delete_asset_loop (names : list bytes) (asset : bytes) (err : Z)
    (w : world) : Z * world :=
  match names with
  | [] => (err, w)
  | d_name :: rest =>
      match strchr d_name ":" with
      | None => delete_asset_loop rest asset err w
      | Some asset_len =>
          if negb (bytes_eqb (take asset_len d_name) (c_str asset))
          then delete_asset_loop rest asset err w
          else match unlink w d_name with
               | Err _ => delete_asset_loop rest asset (-1)%Z w
               | Ok w' => delete_asset_loop rest asset err w'
               end
      end
  end.

Definition fty_shm_delete_asset (w : world) (asset : bytes) : Z * world :=
  match opendir w with
  | Err _ => ((-1)%Z, w)
  | Ok names => delete_asset_loop names asset 0%Z w
  end.

(** *** cleanup *)

(** What other processes do to the directory between two system calls of
    [fty_shm_cleanup]: for the entry being examined, point 0 is before
    [renameat], point 1 before [fstatat], point 2 before the final
    [unlinkat] or [rename_noreplace]. *)
Definition interference := bytes -> nat -> world -> world.

Definition quiet : interference := fun _ _ w => w.

Definition DELETE : bytes := bytes_of ".delete".

(** The last step of the loop body: the file found under [.delete] is not
    the one that was examined. *)
Definition restore (w : world) (d_name : bytes) (err : Z) : Z * world :=
  match rename_noreplace w DELETE d_name with
  | Err _ =>
      ((-1)%Z, match unlink w DELETE with Ok w' => w' | Err _ => w end)
  | Ok w' => (err, w')
  end.

(** How the first part of an iteration of [fty_shm_cleanup] ends (up to
    the test on [now]): with [continue] and [err] as it was ([Keep]), with
    [continue] and [err = -1] ([Broken]), or by going on to remove the entry
    whose [fstat] gave [st1] ([Expired]). *)
Inductive verdict :=
  | Keep
  | Broken
  | Expired (st1 : file).

Definition cleanup_examine (w : world) (d_name : bytes) : verdict :=
  let len := length d_name in
  if len <? SUFFIX_LEN then Keep
  else if negb (has_metric_suffix d_name) then Keep
  else match open_rdonly w d_name with
  | Err _ => Broken
  | Ok st1 =>
  if st_size st1 <? PAYLOAD_START then Keep
  else match read_buf st1 (TTL_LEN + 1) with
  | Err _ => Broken
  | Ok ttl_str =>
  match parse_ttl ttl_str with
  | Err _ => Broken
  | Ok ttl =>
  if bool_decide (ttl = 0%Z) then Keep
  else
  let now := clock w in
  if (Z.quot (now - st_mtime st1) 2 <=? ttl)%Z then Keep
  else Expired st1
  end end end.

(** The second part of the iteration: from [renameat] to the end. *)
Definition cleanup_remove (env : interference) (d_name : bytes) (st1 : file)
    (err : Z) (w : world) : Z * world :=
  let w := env d_name 0 w in
  match renameat w d_name DELETE with
  | Err _ => ((-1)%Z, w)
  | Ok w =>
  let w := env d_name 1 w in
  match fstatat w DELETE with
  | Err _ => ((-1)%Z, w)
  | Ok st2 =>
  let w := env d_name 2 w in
  if bool_decide (st_dev st1 = st_dev st2) && bool_decide (st_ino st1 = st_ino st2)
  then match unlink w DELETE with
       | Err _ => ((-1)%Z, w)
       | Ok w => (err, w)
       end
  else restore w d_name err
  end end.

(** One iteration of the loop of [fty_shm_cleanup]. *)
Definition cleanup_entry (env : interference) (d_name : bytes) (err : Z)
    (w : world) : Z * world :=
  match cleanup_examine w d_name with
  | Keep => (err, w)
  | Broken => ((-1)%Z, w)
  | Expired st1 => cleanup_remove env d_name st1 err w
  end.

Fixpoint cleanup_loop (env : interference) (names : list bytes) (err : Z)
    (w : world) : Z * world :=
  match names with
  | [] => (err, w)
  | d_name :: rest =>
      let '(err, w) := cleanup_entry env d_name err w in
      cleanup_loop env rest err w
  end.

(** [fty_shm_cleanup] among other processes; alone it is
    [fty_shm_cleanup quiet]. *)
Definition fty_shm_cleanup (env : interference) (w : world) : Z * world :=
  match opendir w with
  | Err _ => ((-1)%Z, w)
  | Ok names => cleanup_loop env names 0%Z w
  end.

(** *** find_assets *)

Fixpoint find_assets_loop (names : list bytes) (seen : gset bytes)
    (assets : list bytes) : list bytes :=
  match names with
  | [] => assets
  | d_name :: rest =>
      match strchr d_name ":" with
      | None => find_assets_loop rest seen assets
      | Some asset_len =>
          let a := take asset_len d_name in
          if bool_decide (a ∈ seen) then find_assets_loop rest seen assets
          else find_assets_loop rest ({[a]} ∪ seen) (assets ++ [a])
      end
  end.

(** [assets] is the vector of the caller; the result is the return value and
    the vector after the call. *)
Definition find_assets (w : world) (assets : list bytes) : Z * list bytes :=
  match opendir w with
  | Err _ => ((-1)%Z, assets)
  | Ok names =>
      let assets : list bytes := [] in (* assets.clear () *)
      (0%Z, find_assets_loop names ∅ assets)
  end.

(** *** read_asset_metrics *)

Record Metric := mkMetric { value : c_string; unit : bytes }.

(** [std::unordered_map::emplace]: nothing happens when the key is there. *)
Definition emplace (k : bytes) (m : Metric) (metrics : gmap bytes Metric)
  : gmap bytes Metric :=
  match metrics !! k with
  | Some _ => metrics
  | None => <[k := m]> metrics
  end.

Fixpoint read_asset_metrics_loop (w : world) (names : list bytes)
    (asset : bytes) (err : Z) (metrics : gmap bytes Metric)
  : Z * gmap bytes Metric :=
  match names with
  | [] => (err, metrics)
  | d_name :: rest =>
      let len := length d_name in
      match strchr d_name ":" with
      | None => read_asset_metrics_loop w rest asset err metrics
      | Some asset_len =>
          if len <? SUFFIX_LEN
          then read_asset_metrics_loop w rest asset err metrics
          else
            let metric_len := len - asset_len - length (bytes_of ":") - SUFFIX_LEN in
            if negb (has_metric_suffix d_name)
            then read_asset_metrics_loop w rest asset err metrics
            else if negb (bytes_eqb (take asset_len d_name) asset)
            then read_asset_metrics_loop w rest asset err metrics
            else match read_value w d_name true with
                 | Err _ => read_asset_metrics_loop w rest asset err metrics
                 | Ok (v, u) =>
                     read_asset_metrics_loop w rest asset 0%Z
                       (emplace (take metric_len (drop (asset_len + 1) d_name))
                          (mkMetric v (default [] u)) metrics)
                 end
      end
  end.

(** [metrics] is the map of the caller; the result is the return value and
    the map after the call. *)
Definition read_asset_metrics (w : world) (asset : bytes)
    (metrics : gmap bytes Metric) : Z * gmap bytes Metric :=
  match opendir w with
  | Err _ => ((-1)%Z, metrics)
  | Ok names =>
      let metrics : gmap bytes Metric := ∅ in (* metrics.clear () *)
      read_asset_metrics_loop w names asset (-1)%Z metrics
  end.

(** The entries that the loop of [read_asset_metrics] reads for [asset],
    and the key under which it stores what it has read. *)
Definition is_metric_of (asset d_name : bytes) : bool :=
  match strchr d_name ":" with
  | None => false
  | Some asset_len =>
      negb (length d_name <? SUFFIX_LEN) && has_metric_suffix d_name
      && bytes_eqb (take asset_len d_name) asset
  end.

Definition metric_key (d_name : bytes) : bytes :=
  match strchr d_name ":" with
  | None => []
  | Some asset_len =>
      take (length d_name - asset_len - length (bytes_of ":") - SUFFIX_LEN)
        (drop (asset_len + 1) d_name)
  end.

End Store.

(** [fty_shm_set_test_dir]: the result and [shm_dir] after the call.
    [PATH_MAX] and [NAME_MAX] are those of [<limits.h>]; the subtraction is
    that of the source when [1 + NAME_MAX <= PATH_MAX]. *)
Definition fty_shm_set_test_dir (PATH_MAX NAME_MAX : nat) (shm_dir dir : bytes)
  : status * bytes :=
  if PATH_MAX - length (bytes_of "/") - NAME_MAX <? length (c_str dir)
  then (Failure ENAMETOOLONG, shm_dir)
  else (Success, c_str dir).

(** The number of bytes that [prepare_filename] writes to [buf] when it
    returns 0: [shm_dir], [/], the asset, [:], the metric and
    [sizeof(METRIC_SUFFIX)] bytes, the final NUL among them. *)
Definition filename_size (shm_dir asset metric : bytes) : nat :=
  length shm_dir + 1 + length asset + 1 + length metric + (SUFFIX_LEN + 1).

(** The entries that the loop of [fty_shm_delete_asset] unlinks for
    [asset]. *)
Definition is_entry_of (asset d_name : bytes) : bool :=
  match strchr d_name ":" with
  | None => false
  | Some asset_len => bytes_eqb (take asset_len d_name) (c_str asset)
  end.

(** ** Data of the examples *)

(** [NAME_MAX] on Linux. *)
Definition LINUX_NAME_MAX : nat := 255.

(** An empty [shm_dir] at time 0, and a world without [shm_dir]. *)
Definition empty_world : world := World 0 0 1 (Some ∅).
Definition no_shm_dir : world := World 0 0 1 None.

(** A directory at time 100 with two entries that are not
    [asset:metric.metric]: [foo:bar] has no suffix; [old.metric] has no
    colon and holds a record with ttl 1 written at time 0. *)
Definition foreign_world : world :=
  World 100 0 3
    (Some (<[bytes_of "foo:bar" := File 0 1 0 (bytes_of "x")]>
             (<[bytes_of "old.metric" :=
                  File 0 2 0 (encode_record (bytes_of "v") (bytes_of "u") 1)]> ∅))).

(** [shm_dir] at time 100 with one record, [a:m.metric], ttl 1, written at
    time 0. *)
Definition racing_world : world :=
  set_clock
    (snd (write_metric LINUX_NAME_MAX empty_world (bytes_of "a") (bytes_of "m")
            (bytes_of "old") (bytes_of "u") 1)) 100.


(** Another process that, before the [renameat] of cleanup, deletes the
    asset [a] and writes the metric anew, and does nothing afterwards. *)
Definition early_writer : interference := fun _ point w =>
  match point with
  | 0 =>
      snd (write_metric LINUX_NAME_MAX
             (snd (fty_shm_delete_asset w (bytes_of "a")))
             (bytes_of "a") (bytes_of "m") (bytes_of "new") (bytes_of "u") 1)
  | _ => w
  end.

(** [shm_dir] with one file, [a:m.metric], of five bytes. *)
Definition short_file_world : world :=
  World 0 0 2 (Some {[ bytes_of "a:m.metric" := File 0 1 0 (bytes_of "short") ]}).

(** * Properties *)

(** ** C strings *)

Lemma c_str_no_nul (s : bytes) : has_nul s = false -> c_str s = s.
Proof.
  induction s as [|c s IH]; simpl; [done|].
  intros [Hc Hs]%orb_false_iff. rewrite Hc. by rewrite IH.
Qed.

Lemma c_str_app_nul (s t : bytes) :
  has_nul s = false -> c_str (s ++ NUL :: t) = s.
Proof.
  induction s as [|c s IH]; simpl; [done|].
  intros [Hc Hs]%orb_false_iff. rewrite Hc. by rewrite IH.
Qed.

Lemma has_nul_app (s t : bytes) : has_nul (s ++ t) = has_nul s || has_nul t.
Proof. apply existsb_app. Qed.

Lemma has_nul_replicate_nul (n : nat) : has_nul (replicate (S n) NUL) = true.
Proof. reflexivity. Qed.

Lemma c_string_at_padded (v : bytes) (n : nat) :
  has_nul v = false -> c_string_at (v ++ replicate (S n) NUL) = Str v.
Proof.
  intros Hv. unfold c_string_at.
  rewrite has_nul_app, has_nul_replicate_nul, orb_true_r.
  simpl replicate. by rewrite c_str_app_nul.
Qed.

Lemma c_string_at_full (v : bytes) :
  has_nul v = false -> c_string_at (v ++ replicate 0 NUL) = Overrun v.
Proof.
  intros Hv. unfold c_string_at. simpl. rewrite app_nil_r. by rewrite Hv.
Qed.

(** ** The TTL field *)

Lemma isdigit_not_nul (c : ascii) : isdigit c = true -> is_nul c = false.
Proof. destruct c as [[] [] [] [] [] [] [] []]; by vm_compute. Qed.

Lemma isdigit_not_space (c : ascii) : isdigit c = true -> isspace c = false.
Proof. destruct c as [[] [] [] [] [] [] [] []]; by vm_compute. Qed.

Lemma isdigit_not_sign (c : ascii) :
  isdigit c = true -> Ascii.eqb c "-" = false /\ Ascii.eqb c "+" = false.
Proof. destruct c as [[] [] [] [] [] [] [] []]; by vm_compute. Qed.

Lemma span_all (p : ascii -> bool) (s : bytes) :
  Forall (fun c => p c = true) s -> span p s = (s, []).
Proof.
  induction 1 as [|c s Hc _ IH]; simpl; [done|]. by rewrite Hc, IH.
Qed.

Lemma digits_no_nul (ds : bytes) :
  Forall (fun c => isdigit c = true) ds -> has_nul ds = false.
Proof.
  induction 1 as [|c s Hc _ IH]; simpl; [done|].
  by rewrite (isdigit_not_nul _ Hc), IH.
Qed.

(** On a string of digits [strtol] converts all of it. *)
Lemma strtol_digits (ds : bytes) :
  ds <> [] -> Forall (fun c => isdigit c = true) ds ->
  strtol ds = (Z.max LONG_MIN (Z.min LONG_MAX (decimal ds)), length ds).
Proof.
  intros Hne Hds. unfold strtol.
  destruct ds as [|c ds]; [done|].
  pose proof (Forall_inv Hds) as Hc.
  simpl span at 1. rewrite (isdigit_not_space _ Hc).
  destruct (isdigit_not_sign _ Hc) as [-> ->].
  rewrite (span_all isdigit (c :: ds) Hds). done.
Qed.

Lemma decimal_snoc (ds : bytes) (c : ascii) :
  decimal (ds ++ [c]) = (10 * decimal ds + digit_val c)%Z.
Proof. unfold decimal. by rewrite fold_left_app. Qed.

Lemma ttl_digits_S (n : nat) (ttl : Z) (acc : bytes) :
  ttl_digits (S n) ttl acc
  = ttl_digits n (Z.quot ttl 10)
      (ascii_of_nat (Z.to_nat (48 + Z.rem ttl 10)) :: acc).
Proof. reflexivity. Qed.

Lemma ttl_digits_acc (n : nat) (ttl : Z) (acc : bytes) :
  ttl_digits n ttl acc = ttl_digits n ttl [] ++ acc.
Proof.
  revert ttl acc. induction n as [|n IH]; intros ttl acc; simpl; [done|].
  rewrite IH. rewrite (IH _ [_]). by rewrite <- app_assoc.
Qed.

Lemma length_ttl_digits (n : nat) (ttl : Z) (acc : bytes) :
  length (ttl_digits n ttl acc) = n + length acc.
Proof.
  revert ttl acc. induction n as [|n IH]; intros ttl acc; simpl; [done|].
  rewrite IH. simpl. lia.
Qed.

Lemma digit_char (d : Z) :
  (0 <= d < 10)%Z ->
  isdigit (ascii_of_nat (Z.to_nat (48 + d))) = true
  /\ digit_val (ascii_of_nat (Z.to_nat (48 + d))) = d.
Proof.
  intros Hd.
  assert (Hc : (d = 0 \/ d = 1 \/ d = 2 \/ d = 3 \/ d = 4 \/ d = 5 \/ d = 6
               \/ d = 7 \/ d = 8 \/ d = 9)%Z) by lia.
  repeat (destruct Hc as [->|Hc]; [by vm_compute|]). subst. by vm_compute.
Qed.

Lemma ttl_digits_isdigit (n : nat) (ttl : Z) :
  (0 <= ttl)%Z -> Forall (fun c => isdigit c = true) (ttl_digits n ttl []).
Proof.
  revert ttl. induction n as [|n IH]; intros ttl Httl; simpl; [constructor|].
  rewrite ttl_digits_acc. apply Forall_app. split.
  - apply IH. by apply Z.quot_pos.
  - constructor; [|constructor]. apply digit_char.
    rewrite Z.rem_mod_nonneg by lia. by apply Z.mod_pos_bound.
Qed.

Lemma decimal_ttl_digits (n : nat) (ttl : Z) :
  (0 <= ttl)%Z -> decimal (ttl_digits n ttl []) = (ttl mod 10 ^ Z.of_nat n)%Z.
Proof.
  revert ttl. induction n as [|n IH]; intros ttl Httl.
  - simpl. by rewrite Z.mod_1_r.
  - rewrite ttl_digits_S, ttl_digits_acc, decimal_snoc.
    rewrite IH by (by apply Z.quot_pos).
    assert (Hd : (0 <= Z.rem ttl 10 < 10)%Z).
    { rewrite Z.rem_mod_nonneg by lia. by apply Z.mod_pos_bound. }
    rewrite (proj2 (digit_char _ Hd)).
    rewrite Z.rem_mod_nonneg, Z.quot_div_nonneg by lia.
    rewrite Nat2Z.inj_succ, Z.pow_succ_r by lia.
    rewrite Z.rem_mul_r by lia. lia.
Qed.

Lemma to_int_small (z : Z) : (- 2 ^ 31 <= z < 2 ^ 31)%Z -> to_int z = z.
Proof. intros Hz. unfold to_int. rewrite Z.mod_small; lia. Qed.

(** A field of ten digits followed by anything parses to its value. *)
Lemma parse_ttl_digits (ds rest : bytes) (c : ascii) :
  length ds = TTL_LEN -> Forall (fun c => isdigit c = true) ds ->
  parse_ttl (ds ++ c :: rest) = Ok (to_int (decimal ds)).
Proof.
  intros Hlen Hds. unfold parse_ttl.
  replace TTL_LEN with (length ds + 0) at 1 by lia.
  rewrite insert_app_r. simpl.
  rewrite c_str_app_nul by (by apply digits_no_nul).
  rewrite strtol_digits; [|by destruct ds|done].
  rewrite bool_decide_eq_false_2 by (by rewrite Hlen; intros []).
  f_equal. f_equal.
  assert (0 <= decimal ds < 10000000000)%Z; [|unfold LONG_MAX, LONG_MIN; lia].
  clear -Hlen Hds.
  assert (Hgen : forall (l : bytes) acc, Forall (fun c => isdigit c = true) l ->
     (0 <= acc)%Z ->
     (0 <= fold_left (fun acc c => 10 * acc + digit_val c) l acc
        < (acc + 1) * 10 ^ Z.of_nat (length l))%Z).
  { induction l as [|x l IH]; intros acc Hl Hacc; simpl fold_left.
    - simpl. lia.
    - inversion Hl as [|? ? Hx Hl']; subst.
      assert (0 <= digit_val x < 10)%Z.
      { clear -Hx. destruct x as [[] [] [] [] [] [] [] []]; by vm_compute in Hx |- *. }
      specialize (IH (10 * acc + digit_val x)%Z Hl' ltac:(lia)).
      rewrite length_cons, Nat2Z.inj_succ, Z.pow_succ_r by lia.
      assert (0 < 10 ^ Z.of_nat (length l))%Z by (apply Z.pow_pos_nonneg; lia).
      assert ((10 * acc + digit_val x + 1) * 10 ^ Z.of_nat (length l)
              <= (acc + 1) * (10 * 10 ^ Z.of_nat (length l)))%Z by nia.
      lia. }
  specialize (Hgen ds 0%Z Hds ltac:(lia)). rewrite Hlen in Hgen.
  change (10 ^ Z.of_nat TTL_LEN)%Z with 10000000000%Z in Hgen.
  unfold decimal. lia.
Qed.

(** The buffer of [read_value] once [buf[TTL_LEN]] is NUL, for a record that
    [write_value] wrote. *)
Lemma encode_record_nul (v u : bytes) (ttl : Z) :
  <[TTL_LEN := NUL]> (encode_record v u ttl)
  = ttl_digits TTL_LEN (clamp_ttl ttl) []
    ++ NUL :: (u ++ replicate (UNIT_LEN - length u) SP)
    ++ LF :: v ++ replicate (PAYLOAD_LEN - length v) NUL.
Proof.
  unfold encode_record.
  replace TTL_LEN with (length (ttl_digits TTL_LEN (clamp_ttl ttl) []) + 0) at 1
    by (by rewrite length_ttl_digits).
  rewrite insert_app_r. f_equal. simpl. f_equal. by rewrite <- app_assoc.
Qed.

(** The TTL that [write_value] encodes is the TTL that [parse_ttl] reads. *)
Lemma parse_ttl_encode_record (v u : bytes) (ttl : Z) :
  (0 <= ttl < 2 ^ 31)%Z ->
  parse_ttl (<[TTL_LEN := NUL]> (encode_record v u ttl)) = Ok ttl.
Proof.
  intros Httl. rewrite encode_record_nul.
  assert (Hc : clamp_ttl ttl = ttl).
  { unfold clamp_ttl. destruct (Z.ltb_spec ttl 0); lia. }
  rewrite Hc, parse_ttl_digits.
  - rewrite decimal_ttl_digits by lia.
    change (10 ^ Z.of_nat TTL_LEN)%Z with 10000000000%Z.
    rewrite Z.mod_small by lia. by rewrite to_int_small by lia.
  - by rewrite length_ttl_digits.
  - apply ttl_digits_isdigit; lia.
Qed.

(** ** The unit and value fields *)

(** Goals about the lengths of fields. *)
Ltac layout :=
  repeat first [rewrite length_app | rewrite length_replicate
               | progress cbn [length]];
  unfold RECORD_LEN, PAYLOAD_LEN, PAYLOAD_START, UNIT_START, UNIT_LEN, TTL_LEN
    in *;
  lia.

(** Appends associated to the right, conses pushed in front. *)
Ltac app_norm := repeat first [rewrite <- app_assoc | progress cbn [app]].

Lemma snoc_case {A} (l : list A) : l = [] \/ exists l' x, l = l' ++ [x].
Proof. induction l as [|x l' _] using rev_ind; eauto. Qed.

Lemma trim_end_pads (l pads rest : bytes) :
  Forall (fun c => is_pad c = true) pads ->
  trim_end (l ++ pads ++ rest) (length l + length pads)
  = trim_end (l ++ pads ++ rest) (length l).
Proof.
  revert rest. induction pads as [|c pads IH] using rev_ind; intros rest Hp.
  - simpl. by rewrite Nat.add_0_r.
  - apply Forall_app in Hp as [Hp Hc]. apply Forall_inv in Hc.
    rewrite length_app. simpl length.
    replace (length l + (length pads + 1)) with (S (length (l ++ pads)))
      by (rewrite length_app; lia).
    simpl trim_end.
    replace (l ++ (pads ++ [c]) ++ rest) with ((l ++ pads) ++ c :: rest)
      by (by app_norm).
    rewrite list_lookup_middle by done. rewrite Hc.
    rewrite <- app_assoc, length_app. by apply (IH (c :: rest)).
Qed.

Lemma trim_end_stop (l rest : bytes) (c : ascii) :
  is_pad c = false -> trim_end (l ++ c :: rest) (S (length l)) = S (length l).
Proof. intros Hc. simpl. rewrite list_lookup_middle by done. by rewrite Hc. Qed.

Lemma trim_end_stop_snoc (l rest : bytes) (c : ascii) :
  is_pad c = false ->
  trim_end ((l ++ [c]) ++ rest) (length (l ++ [c])) = length (l ++ [c]).
Proof.
  intros Hc. rewrite length_app, Nat.add_1_r, <- app_assoc.
  by apply trim_end_stop.
Qed.

Lemma is_pad_SP : is_pad SP = true.
Proof. reflexivity. Qed.

Lemma is_pad_LF : is_pad LF = true.
Proof. reflexivity. Qed.

(** Where the trimming loop stops on a record whose unit holds no space or
    newline at its end: right after the unit. *)
Lemma trim_end_encoded (ds u rest : bytes) :
  length ds = TTL_LEN -> length u <= UNIT_LEN ->
  (forall c, last u = Some c -> is_pad c = false) ->
  trim_end
    (ds ++ NUL :: (u ++ replicate (UNIT_LEN - length u) SP) ++ LF :: rest)
    (UNIT_START + UNIT_LEN + 1)
  = UNIT_START + length u.
Proof.
  intros Hds Hlen Hlast.
  replace (ds ++ NUL :: (u ++ replicate (UNIT_LEN - length u) SP) ++ LF :: rest)
    with ((ds ++ NUL :: u)
          ++ (replicate (UNIT_LEN - length u) SP ++ [LF]) ++ rest)
    by (by app_norm).
  replace (UNIT_START + UNIT_LEN + 1)
    with (length (ds ++ NUL :: u)
          + length (replicate (UNIT_LEN - length u) SP ++ [LF])).
  2:{ layout. }
  rewrite trim_end_pads.
  2:{ apply Forall_app. split; [apply Forall_replicate|repeat constructor];
      reflexivity. }
  destruct (snoc_case u) as [->|[u' [c ->]]].
  - cbn [app]. rewrite trim_end_stop_snoc by reflexivity. layout.
  - replace (ds ++ NUL :: u' ++ [c]) with ((ds ++ NUL :: u') ++ [c])
      by (by app_norm).
    rewrite trim_end_stop_snoc by (apply Hlast, last_snoc). layout.
Qed.

(** A unit that holds no NUL and does not end in a space or a newline is
    read back as it was written. *)
Lemma read_unit_encoded (ds u rest : bytes) :
  length ds = TTL_LEN -> length u <= UNIT_LEN ->
  has_nul u = false ->
  (forall c, last u = Some c -> is_pad c = false) ->
  read_unit (ds ++ NUL :: (u ++ replicate (UNIT_LEN - length u) SP) ++ LF :: rest)
  = u.
Proof.
  intros Hds Hlen Hnul Hlast. unfold read_unit.
  rewrite trim_end_encoded by done.
  replace (UNIT_START + length u - UNIT_START) with (length u) by lia.
  replace (ds ++ NUL :: (u ++ replicate (UNIT_LEN - length u) SP) ++ LF :: rest)
    with ((ds ++ [NUL]) ++ u ++ (replicate (UNIT_LEN - length u) SP ++ LF :: rest)).
  2:{ by app_norm. }
  rewrite drop_app_length' by layout.
  rewrite take_app_length. by apply c_str_no_nul.
Qed.

(** On such a record the NUL that ends the unit falls before the payload. *)
Lemma drop_payload_trim_unit (ds u rest : bytes) :
  length ds = TTL_LEN -> length u <= UNIT_LEN ->
  (forall c, last u = Some c -> is_pad c = false) ->
  drop PAYLOAD_START
    (trim_unit
       (ds ++ NUL :: (u ++ replicate (UNIT_LEN - length u) SP) ++ LF :: rest))
  = drop PAYLOAD_START
      (ds ++ NUL :: (u ++ replicate (UNIT_LEN - length u) SP) ++ LF :: rest).
Proof.
  intros Hds Hlen Hlast. unfold trim_unit.
  rewrite trim_end_encoded by done. apply drop_insert_lt. layout.
Qed.

Lemma drop_payload_encoded (ds u rest : bytes) :
  length ds = TTL_LEN -> length u <= UNIT_LEN ->
  drop PAYLOAD_START
    (ds ++ NUL :: (u ++ replicate (UNIT_LEN - length u) SP) ++ LF :: rest)
  = rest.
Proof.
  intros Hds Hlen.
  replace (ds ++ NUL :: (u ++ replicate (UNIT_LEN - length u) SP) ++ LF :: rest)
    with ((ds ++ NUL :: (u ++ replicate (UNIT_LEN - length u) SP) ++ [LF]) ++ rest).
  2:{ by app_norm. }
  apply drop_app_length'. layout.
Qed.

Lemma length_encode_record (v u : bytes) (ttl : Z) :
  length v <= PAYLOAD_LEN -> length u <= UNIT_LEN ->
  length (encode_record v u ttl) = RECORD_LEN.
Proof.
  intros Hv Hu. unfold encode_record.
  rewrite !length_app, length_ttl_digits. layout.
Qed.

(** [parse_ttl] looks at the first [TTL_LEN] bytes only. *)
Lemma c_str_take (l : bytes) (n i : nat) :
  l !! i = Some NUL -> i < n -> c_str (take n l) = c_str l.
Proof.
  revert n i. induction l as [|c l IH]; intros n i Hi Hn; [by destruct n|].
  destruct n as [|n]; [lia|]. simpl.
  destruct (is_nul c) eqn:Hc; [done|]. f_equal.
  destruct i as [|i]; simpl in Hi.
  - injection Hi as ->. done.
  - apply (IH n i); [done|lia].
Qed.

Lemma parse_ttl_take (l : bytes) (n : nat) :
  TTL_LEN < n -> TTL_LEN < length l -> parse_ttl (take n l) = parse_ttl l.
Proof.
  intros Hn Hl. unfold parse_ttl.
  rewrite <- take_insert_lt by done.
  rewrite (c_str_take _ n TTL_LEN); [done| |done].
  by apply list_lookup_insert_eq.
Qed.

Lemma parse_ttl_insert (l : bytes) :
  parse_ttl (<[TTL_LEN := NUL]> l) = parse_ttl l.
Proof. unfold parse_ttl. by rewrite list_insert_insert_eq. Qed.

(** ** The file system calls *)

Lemma memchr_spec (s : bytes) (c : ascii) : memchr s c = true <-> In c s.
Proof.
  unfold memchr. rewrite existsb_exists. split.
  - intros (x & Hx & ->%Ascii.eqb_eq). done.
  - intros Hc. exists c. split; [done|]. apply Ascii.eqb_refl.
Qed.

Lemma open_creat_Ok (w w' : world) (name : bytes) :
  open_creat w name = Ok w' ->
  is_dir_name name = false /\ clock w' = clock w
  /\ exists d f, root w' = Some d /\ d !! name = Some f.
Proof.
  unfold open_creat. destruct (root w) as [d|] eqn:Hroot; [|done].
  destruct (is_dir_name name); [done|].
  destruct (d !! name) as [f|] eqn:Hf; intros [= <-].
  - eauto 10.
  - simpl. repeat split. eexists _, _. split; [done|]. apply lookup_insert_eq.
Qed.

Lemma open_rdonly_Ok (w : world) (name : bytes) (f : file) :
  open_rdonly w name = Ok f <-> is_dir_name name = false /\ entry w name = Some f.
Proof.
  unfold open_rdonly, entry. destruct (root w) as [d|]; simpl.
  - destruct (is_dir_name name).
    + split; [done|]. by intros [? _].
    + destruct (d !! name); (split; [by intros [= ->] | by intros [_ [= ->]]])
        || (split; [done | by intros [_ ?]]).
  - split; [done|]. by intros [_ ?].
Qed.

Lemma entry_pwrite (w : world) (name buf : bytes) (d : gmap bytes file) (f : file) :
  root w = Some d -> d !! name = Some f ->
  entry (pwrite w name buf) name
  = Some (File (st_dev f) (st_ino f) (clock w)
            (buf ++ drop (length buf) (contents f))).
Proof.
  intros Hd Hf. unfold pwrite, entry. rewrite Hd, Hf. simpl.
  apply lookup_insert_eq.
Qed.

Lemma entry_set_clock (w : world) (t : Z) (name : bytes) :
  entry (set_clock w t) name = entry w name.
Proof. reflexivity. Qed.

(** [read_value] on a file that is there and holds a whole record. *)
Lemma read_value_record (w : world) (filename : bytes) (st : file)
    (need_unit : bool) :
  open_rdonly w filename = Ok st -> RECORD_LEN <= st_size st ->
  read_value w filename need_unit
  = let buf := <[TTL_LEN := NUL]> (take RECORD_LEN (contents st)) in
    match parse_ttl (contents st) with
    | Err e => Err e
    | Ok ttl =>
        if bool_decide (ttl <> 0%Z) && (ttl <? clock w - st_mtime st)%Z
        then Err ESTALE
        else Ok (c_string_at
                   (drop PAYLOAD_START
                      (if need_unit then trim_unit buf else buf)),
                 if need_unit then Some (read_unit buf) else None)
    end.
Proof.
  intros Hopen Hsize. unfold read_value, read_buf. rewrite Hopen.
  destruct (Nat.ltb_spec (st_size st) RECORD_LEN) as [?|_]; [lia|].
  unfold st_size in Hsize.
  rewrite parse_ttl_insert, parse_ttl_take; [done|layout|layout].
Qed.

(** ** Encoding a record *)

Lemma digit_byte (r : Z) :
  (- 9 <= r <= 9)%Z -> digit_val (ascii_of_nat (Z.to_nat (48 + r))) = r.
Proof.
  intros Hr.
  assert (Hc : (r = -9 \/ r = -8 \/ r = -7 \/ r = -6 \/ r = -5 \/ r = -4
                \/ r = -3 \/ r = -2 \/ r = -1 \/ r = 0 \/ r = 1 \/ r = 2
                \/ r = 3 \/ r = 4 \/ r = 5 \/ r = 6 \/ r = 7 \/ r = 8
                \/ r = 9)%Z) by lia.
  repeat (destruct Hc as [->|Hc]; [by vm_compute|]). subst. by vm_compute.
Qed.

(** On a negative ttl the loop writes, digit for digit, the bytes as far
    below ['0'] as those of the opposite ttl are above it. *)
Lemma decimal_ttl_digits_opp (n : nat) (a : Z) :
  (0 <= a)%Z ->
  decimal (ttl_digits n (- a) []) = (- decimal (ttl_digits n a []))%Z.
Proof.
  revert a. induction n as [|n IH]; intros a Ha; [done|].
  rewrite !ttl_digits_S, (ttl_digits_acc n (Z.quot (- a) 10)),
    (ttl_digits_acc n (Z.quot a 10)), !decimal_snoc.
  rewrite Z.quot_opp_l, Z.rem_opp_l by lia.
  assert (Hr : (0 <= Z.rem a 10 < 10)%Z).
  { rewrite Z.rem_mod_nonneg by lia. by apply Z.mod_pos_bound. }
  rewrite !digit_byte by lia.
  rewrite IH by (by apply Z.quot_pos). lia.
Qed.

(** Without the clamp, the loop of [write_value] on a negative [int] does
    not write the field of ttl 0. *)
Lemma ttl_digits_negative (ttl : Z) :
  (- 2 ^ 31 <= ttl < 0)%Z ->
  ttl_digits TTL_LEN ttl [] <> ttl_digits TTL_LEN 0 [].
Proof.
  intros Httl Heq. apply (f_equal decimal) in Heq.
  replace ttl with (- (- ttl))%Z in Heq by lia.
  rewrite decimal_ttl_digits_opp, !decimal_ttl_digits in Heq by lia.
  change (10 ^ Z.of_nat TTL_LEN)%Z with 10000000000%Z in Heq.
  rewrite Z.mod_small in Heq by lia. rewrite Z.mod_0_l in Heq by lia. lia.
Qed.

Example ttl_digits_minus_3 :
  ttl_digits TTL_LEN (-3) [] = bytes_of "000000000-".
Proof. reflexivity. Qed.

(** C8: [write_value] fails with [EINVAL] when the value is longer than
    106 bytes or the unit longer than 10 bytes, writing nothing; a negative
    ttl is encoded, byte for byte, as ttl 0, and is read back as 0.  It is
    the clamp that does it: on a negative [int] the loop alone writes
    another TTL field than the one of the record. *)
Theorem write_value_bounds_and_clamp (w : world) (filename value unit : bytes)
    (ttl : Z) :
  (PAYLOAD_LEN < length value \/ UNIT_LEN < length unit ->
   write_value w filename value unit ttl = (Failure EINVAL, w))
  /\ ((ttl < 0)%Z ->
      encode_record value unit ttl = encode_record value unit 0
      /\ write_value w filename value unit ttl
         = write_value w filename value unit 0
      /\ parse_ttl (encode_record value unit ttl) = Ok 0%Z
      /\ take TTL_LEN (encode_record value unit ttl) = ttl_digits TTL_LEN 0 []
      /\ ((- 2 ^ 31 <= ttl)%Z ->
          take TTL_LEN (encode_record value unit ttl)
          <> ttl_digits TTL_LEN ttl [])).
Proof.
  split.
  - intros Hlen. unfold write_value.
    destruct (Nat.ltb_spec PAYLOAD_LEN (length value)) as [_|?]; [done|].
    destruct (Nat.ltb_spec UNIT_LEN (length unit)) as [_|?]; [done|lia].
  - intros Httl.
    assert (Henc : encode_record value unit ttl = encode_record value unit 0).
    { unfold encode_record, clamp_ttl.
      destruct (Z.ltb_spec ttl 0) as [_|?]; [done|lia]. }
    assert (Htake : take TTL_LEN (encode_record value unit ttl)
                    = ttl_digits TTL_LEN 0 []).
    { rewrite Henc. unfold encode_record.
      apply take_app_length'. by rewrite length_ttl_digits. }
    split; [done|]. split; [|split; [|split; [done|]]].
    + unfold write_value. by rewrite Henc.
    + rewrite Henc, <- parse_ttl_insert. by apply parse_ttl_encode_record.
    + intros Hint. rewrite Htake. intros Heq.
      by apply (ttl_digits_negative ttl).
Qed.

Lemma write_value_bounds_and_clamp_witness :
  write_value empty_world (bytes_of "a:m.metric") (bytes_of "v")
    (bytes_of "12345678901") 5 = (Failure EINVAL, empty_world)
  /\ encode_record (bytes_of "v") (bytes_of "u") (-3)
     = encode_record (bytes_of "v") (bytes_of "u") 0.
Proof.
  split.
  - apply (proj1 (write_value_bounds_and_clamp empty_world
                    (bytes_of "a:m.metric") (bytes_of "v")
                    (bytes_of "12345678901") 5)).
    right. vm_compute. lia.
  - apply (proj2 (write_value_bounds_and_clamp empty_world
                    (bytes_of "a:m.metric") (bytes_of "v") (bytes_of "u") (-3))).
    lia.
Defined.

(** ** Decoding the TTL *)

(** C9, on the code: a TTL field with a sign or with leading white space is
    accepted by [parse_ttl], which gives a value and no [ERANGE]. *)
Theorem parse_ttl_accepts_sign_and_space :
  parse_ttl (bytes_of "-000000005" ++ [LF]) = Ok (-5)%Z
  /\ parse_ttl (bytes_of "+000000005" ++ [LF]) = Ok 5%Z
  /\ parse_ttl (bytes_of "         5" ++ [LF]) = Ok 5%Z.
Proof. by vm_compute. Qed.

(** ** Names *)

(** C7, as the code has it: a name that is too long fails with
    [ENAMETOOLONG]; a name that is not too long and holds [/] or [:] fails
    with [EINVAL]; either way [write_metric] leaves the world as it was and
    [read_metric] fails whatever the world holds. *)
Theorem prepare_filename_validation (name_max : nat) (w : world)
    (asset metric value unit : bytes) (ttl : Z) (need_unit : bool) :
  (name_max < length asset + 1 + length metric + SUFFIX_LEN ->
   write_metric name_max w asset metric value unit ttl = (Failure ENAMETOOLONG, w)
   /\ read_metric name_max w asset metric need_unit = Err ENAMETOOLONG)
  /\ (length asset + 1 + length metric + SUFFIX_LEN <= name_max ->
      In "/"%char asset \/ In ":"%char asset
      \/ In "/"%char metric \/ In ":"%char metric ->
      write_metric name_max w asset metric value unit ttl = (Failure EINVAL, w)
      /\ read_metric name_max w asset metric need_unit = Err EINVAL).
Proof.
  unfold write_metric, read_metric, prepare_filename. cbn [length bytes_of
    list_ascii_of_string].
  split.
  - intros Hlen.
    destruct (Nat.ltb_spec name_max
                (length asset + 1 + length metric + SUFFIX_LEN)); [done|lia].
  - intros Hlen Hin.
    destruct (Nat.ltb_spec name_max
                (length asset + 1 + length metric + SUFFIX_LEN)); [lia|].
    rewrite <- !memchr_spec in Hin.
    destruct Hin as [-> | [-> | [-> | ->]]]; by rewrite ?orb_true_r.
Qed.

Lemma prepare_filename_validation_witness :
  read_metric LINUX_NAME_MAX empty_world (replicate 300 "A"%char)
    (bytes_of "m") true = Err ENAMETOOLONG
  /\ read_metric LINUX_NAME_MAX empty_world (bytes_of "bad/asset")
       (bytes_of "m") true = Err EINVAL.
Proof.
  split.
  - apply (proj1 (prepare_filename_validation LINUX_NAME_MAX empty_world
             (replicate 300 "A"%char) (bytes_of "m") [] [] 0 true)).
    vm_compute. lia.
  - apply (proj2 (prepare_filename_validation LINUX_NAME_MAX empty_world
             (bytes_of "bad/asset") (bytes_of "m") [] [] 0 true)).
    + vm_compute. lia.
    + left. vm_compute. tauto.
Defined.

(** C7, as the claim has it, fails: a name that holds [/] and is too long
    is rejected with [ENAMETOOLONG], not with [EINVAL]. *)
Lemma slash_in_long_name_is_ENAMETOOLONG :
  In "/"%char (replicate 300 "A"%char ++ bytes_of "/")
  /\ write_metric LINUX_NAME_MAX empty_world
       (replicate 300 "A"%char ++ bytes_of "/") (bytes_of "m")
       (bytes_of "v") (bytes_of "u") 0
     = (Failure ENAMETOOLONG, empty_world)
  /\ read_metric LINUX_NAME_MAX empty_world
       (replicate 300 "A"%char ++ bytes_of "/") (bytes_of "m") true
     <> Err EINVAL.
Proof.
  split; [apply in_or_app; right; by left|]. split; by vm_compute.
Qed.

(** ** Reading a metric *)

(** C3: for a record whose TTL field reads 0, [read_metric] succeeds
    whatever the clock says; for one whose TTL field reads [T > 0] it
    succeeds while [now - st_mtime <= T], and it fails with [ESTALE] exactly
    when [now - st_mtime > T]. *)
Theorem read_metric_ttl (name_max : nat) (w : world) (asset metric filename : bytes)
    (st : file) (T : Z) (need_unit : bool) :
  prepare_filename name_max asset metric = Ok filename ->
  open_rdonly w filename = Ok st ->
  RECORD_LEN <= st_size st ->
  parse_ttl (contents st) = Ok T ->
  (T = 0%Z -> is_ok (read_metric name_max w asset metric need_unit) = true)
  /\ ((0 < T)%Z -> (clock w - st_mtime st <= T)%Z ->
      is_ok (read_metric name_max w asset metric need_unit) = true)
  /\ ((0 < T)%Z ->
      read_metric name_max w asset metric need_unit = Err ESTALE
      <-> (T < clock w - st_mtime st)%Z).
Proof.
  intros Hname Hopen Hsize Httl. unfold read_metric. rewrite Hname.
  rewrite (read_value_record _ _ _ _ Hopen Hsize). cbv zeta. rewrite Httl.
  repeat split.
  - intros ->. done.
  - intros HT Hfresh. rewrite (proj2 (Z.ltb_ge _ _)) by done.
    by rewrite andb_false_r.
  - destruct (Z.ltb_spec T (clock w - st_mtime st)); [done|].
    by rewrite andb_false_r.
  - intros Hstale. rewrite bool_decide_eq_true_2 by lia.
    by rewrite (proj2 (Z.ltb_lt _ _)) by done.
Qed.

Lemma read_metric_ttl_witness :
  read_metric LINUX_NAME_MAX racing_world (bytes_of "a") (bytes_of "m") true
  = Err ESTALE
  <-> (1 < clock racing_world - 0)%Z.
Proof.
  refine (proj2 (proj2 (read_metric_ttl LINUX_NAME_MAX racing_world
            (bytes_of "a") (bytes_of "m") (bytes_of "a:m.metric")
            (File 0 1 0 (encode_record (bytes_of "old") (bytes_of "u") 1))
            1 true _ _ _ _)) _).
  - reflexivity.
  - reflexivity.
  - vm_compute. lia.
  - reflexivity.
  - lia.
Defined.

(** ** Writing, then reading *)

Lemma write_metric_Success (name_max : nat) (w w' : world)
    (asset metric value unit : bytes) (ttl : Z) :
  write_metric name_max w asset metric value unit ttl = (Success, w') ->
  exists filename st,
    prepare_filename name_max asset metric = Ok filename
    /\ length value <= PAYLOAD_LEN /\ length unit <= UNIT_LEN
    /\ is_dir_name filename = false
    /\ entry w' filename = Some st
    /\ st_mtime st = clock w
    /\ take RECORD_LEN (contents st) = encode_record value unit ttl
    /\ RECORD_LEN <= st_size st.
Proof.
  unfold write_metric, write_value.
  destruct (prepare_filename name_max asset metric) as [filename|] eqn:Hname;
    [|done].
  destruct (Nat.ltb_spec PAYLOAD_LEN (length value)) as [?|Hv]; [done|].
  destruct (Nat.ltb_spec UNIT_LEN (length unit)) as [?|Hu]; [done|].
  destruct (open_creat w filename) as [w1|] eqn:Hopen; [|done].
  intros [= <-].
  destruct (open_creat_Ok _ _ _ Hopen) as (Hdir & Hclock & d & f & Hd & Hf).
  eexists filename, _. rewrite (entry_pwrite _ _ _ _ _ Hd Hf).
  pose proof (length_encode_record value unit ttl Hv Hu) as Hlen.
  unfold st_size.
  repeat split; try done; cbn [contents st_mtime].
  - by rewrite <- Hlen, take_app_length.
  - rewrite length_app. lia.
Qed.

(** The record that [write_metric] leaves has the TTL it was given and the
    time of the write as its modification time. *)
Lemma write_metric_record (name_max : nat) (w w' : world)
    (asset metric value unit : bytes) (ttl : Z) :
  (0 <= ttl < 2 ^ 31)%Z ->
  write_metric name_max w asset metric value unit ttl = (Success, w') ->
  exists filename st,
    prepare_filename name_max asset metric = Ok filename
    /\ open_rdonly w' filename = Ok st
    /\ RECORD_LEN <= st_size st
    /\ st_mtime st = clock w
    /\ parse_ttl (contents st) = Ok ttl.
Proof.
  intros Httl Hwrite.
  destruct (write_metric_Success _ _ _ _ _ _ _ _ Hwrite)
    as (filename & st & Hname & _ & _ & Hdir & Hst & Hmtime & Hrec & Hsize).
  exists filename, st. repeat split; try done.
  - by apply open_rdonly_Ok.
  - unfold st_size in Hsize.
    rewrite <- (parse_ttl_take (contents st) RECORD_LEN) by layout.
    rewrite Hrec, <- parse_ttl_insert. by apply parse_ttl_encode_record.
Qed.

(** C2, as the code has it: after a successful [write_metric] with ttl 0 of
    a value shorter than 106 bytes and a unit that does not end in a space
    or a newline, neither holding a NUL, [read_metric] on the same asset and
    metric gives back the value and the unit, whatever the time. *)
Theorem write_read_round_trip (name_max : nat) (w w' : world)
    (asset metric value unit : bytes) (now : Z) :
  write_metric name_max w asset metric value unit 0 = (Success, w') ->
  has_nul value = false -> length value < PAYLOAD_LEN ->
  has_nul unit = false ->
  (forall c, last unit = Some c -> is_pad c = false) ->
  read_metric name_max (set_clock w' now) asset metric true
  = Ok (Str value, Some unit)
  /\ read_metric name_max (set_clock w' now) asset metric false
     = Ok (Str value, None).
Proof.
  intros Hwrite Hvnul Hvlen Hunul Hulast.
  destruct (write_metric_Success _ _ _ _ _ _ _ _ Hwrite)
    as (filename & st & Hname & _ & Hu & Hdir & Hst & _ & Hrec & Hsize).
  assert (Hopen : open_rdonly (set_clock w' now) filename = Ok st).
  { apply open_rdonly_Ok. by rewrite entry_set_clock. }
  assert (Hread : forall need_unit,
    read_value (set_clock w' now) filename need_unit
    = Ok (Str value, if need_unit then Some unit else None)).
  { intros need_unit. rewrite (read_value_record _ _ _ _ Hopen Hsize).
    cbv zeta. unfold st_size in Hsize.
    rewrite <- (parse_ttl_take (contents st) RECORD_LEN) by layout.
    rewrite Hrec, <- parse_ttl_insert, parse_ttl_encode_record by done.
    rewrite bool_decide_eq_false_2 by (intros H; by apply H). cbn [andb].
    rewrite encode_record_nul.
    assert (Hdrop : drop PAYLOAD_START
              (if need_unit
               then trim_unit
                      (ttl_digits TTL_LEN (clamp_ttl 0) []
                       ++ NUL :: (unit ++ replicate (UNIT_LEN - length unit) SP)
                       ++ LF :: value ++ replicate (PAYLOAD_LEN - length value) NUL)
               else ttl_digits TTL_LEN (clamp_ttl 0) []
                    ++ NUL :: (unit ++ replicate (UNIT_LEN - length unit) SP)
                    ++ LF :: value ++ replicate (PAYLOAD_LEN - length value) NUL)
            = value ++ replicate (PAYLOAD_LEN - length value) NUL).
    { destruct need_unit; rewrite ?drop_payload_trim_unit, drop_payload_encoded;
        try done; by rewrite length_ttl_digits. }
    rewrite Hdrop, read_unit_encoded;
      try done; try (by rewrite length_ttl_digits).
    destruct (PAYLOAD_LEN - length value) as [|n] eqn:Hn; [lia|].
    by rewrite c_string_at_padded. }
  unfold read_metric. rewrite Hname. by rewrite !Hread.
Qed.

Lemma write_read_round_trip_witness :
  read_metric LINUX_NAME_MAX
    (set_clock (snd (write_metric LINUX_NAME_MAX empty_world
                       (bytes_of "assetA") (bytes_of "temp")
                       (bytes_of "23.5") (bytes_of "C") 0)) 1000)
    (bytes_of "assetA") (bytes_of "temp") true
  = Ok (Str (bytes_of "23.5"), Some (bytes_of "C")).
Proof.
  refine (proj1 (write_read_round_trip LINUX_NAME_MAX empty_world _
                   (bytes_of "assetA") (bytes_of "temp")
                   (bytes_of "23.5") (bytes_of "C") 1000 _ _ _ _ _)).
  - reflexivity.
  - reflexivity.
  - vm_compute. lia.
  - reflexivity.
  - intros c [= <-]. reflexivity.
Defined.

(** C2, as the claim has it, fails: the spaces that end a unit are taken
    for padding and are not read back. *)
Lemma round_trip_loses_unit_padding :
  length (bytes_of "23.5") <= 106 /\ length (bytes_of "C ") <= 10
  /\ fst (write_metric LINUX_NAME_MAX empty_world (bytes_of "assetA")
            (bytes_of "temp") (bytes_of "23.5") (bytes_of "C ") 0) = Success
  /\ read_metric LINUX_NAME_MAX
       (snd (write_metric LINUX_NAME_MAX empty_world (bytes_of "assetA")
               (bytes_of "temp") (bytes_of "23.5") (bytes_of "C ") 0))
       (bytes_of "assetA") (bytes_of "temp") true
     = Ok (Str (bytes_of "23.5"), Some (bytes_of "C"))
  /\ bytes_of "C" <> bytes_of "C ".
Proof.
  split; [vm_compute; lia|]. split; [vm_compute; lia|].
  split; [by vm_compute|]. split; by vm_compute.
Qed.

(** A value of exactly 106 bytes fills the payload: no NUL ends it inside
    the buffer that [read_value] reads the C string from. *)
Example read_full_payload_overruns :
  read_metric LINUX_NAME_MAX
    (snd (write_metric LINUX_NAME_MAX empty_world (bytes_of "a")
            (bytes_of "m") (replicate 106 "x"%char) (bytes_of "u") 0))
    (bytes_of "a") (bytes_of "m") true
  = Ok (Overrun (replicate 106 "x"%char), Some (bytes_of "u")).
Proof. by vm_compute. Qed.

(** ** Names of entries *)

Lemma strchr_Some (s : bytes) (c : ascii) (n : nat) :
  strchr s c = Some n -> s !! n = Some c.
Proof.
  revert n. induction s as [|x s IH]; intros n; simpl; [done|].
  destruct (Ascii.eqb_spec x c) as [->|_].
  - by intros [= <-].
  - destruct (strchr s c) as [m|]; simpl; [|done].
    intros [= <-]. by apply IH.
Qed.

Lemma has_metric_suffix_length (d_name : bytes) :
  has_metric_suffix d_name = true -> SUFFIX_LEN <= length d_name.
Proof.
  unfold has_metric_suffix, bytes_eqb. intros H%bool_decide_eq_true.
  apply (f_equal length) in H. rewrite length_drop in H.
  change (length METRIC_SUFFIX) with SUFFIX_LEN in H.
  unfold SUFFIX_LEN in *. simpl in *. lia.
Qed.

Lemma colon_not_in_suffix (j : nat) : METRIC_SUFFIX !! j <> Some ":"%char.
Proof. do 8 (destruct j as [|j]; [by vm_compute|]). by vm_compute. Qed.

(** The names that [read_asset_metrics] reads for [asset] are
    [asset:key.metric]. *)
Lemma metric_name_split (asset d_name : bytes) :
  is_metric_of asset d_name = true ->
  d_name = asset ++ bytes_of ":" ++ metric_key d_name ++ METRIC_SUFFIX.
Proof.
  unfold is_metric_of, metric_key.
  destruct (strchr d_name ":") as [n|] eqn:Hn; [|done].
  intros [[_ Hsuf]%andb_true_iff Hasset]%andb_true_iff.
  apply bool_decide_eq_true in Hasset.
  pose proof (has_metric_suffix_length _ Hsuf) as Hlen.
  apply bool_decide_eq_true in Hsuf. apply strchr_Some in Hn.
  assert (Hlt : n < length d_name) by (by eapply lookup_lt_Some).
  assert (Hn' : n + 1 + SUFFIX_LEN <= length d_name).
  { destruct (decide (n + 1 + SUFFIX_LEN <= length d_name)) as [|Hbad]; [done|].
    exfalso. apply (colon_not_in_suffix (n - (length d_name - SUFFIX_LEN))).
    rewrite <- Hsuf, lookup_drop, <- Hn. f_equal. lia. }
  rewrite <- Hasset at 1.
  rewrite <- (take_drop n d_name) at 1. f_equal.
  rewrite (drop_S _ _ _ Hn). cbn [bytes_of list_ascii_of_string app]. f_equal.
  replace (S n) with (n + 1) by lia.
  set (k := length d_name - n - length [":"%char] - SUFFIX_LEN).
  rewrite <- (take_drop k (drop (n + 1) d_name)) at 1. f_equal.
  rewrite drop_drop, <- Hsuf. f_equal. unfold k. simpl length. lia.
Qed.

(** ** read_asset_metrics *)

Lemma read_asset_metrics_loop_cons (w : world) (d_name : bytes)
    (rest : list bytes) (asset : bytes) (err : Z) (metrics : gmap bytes Metric) :
  read_asset_metrics_loop w (d_name :: rest) asset err metrics
  = if is_metric_of asset d_name
    then match read_value w d_name true with
         | Err _ => read_asset_metrics_loop w rest asset err metrics
         | Ok (v, u) =>
             read_asset_metrics_loop w rest asset 0%Z
               (emplace (metric_key d_name) (mkMetric v (default [] u)) metrics)
         end
    else read_asset_metrics_loop w rest asset err metrics.
Proof.
  unfold is_metric_of, metric_key. cbn [read_asset_metrics_loop].
  destruct (strchr d_name ":") as [n|]; [|done].
  destruct (length d_name <? SUFFIX_LEN); [done|]. cbn [negb andb].
  destruct (has_metric_suffix d_name); [|done]. cbn [negb andb].
  by destruct (bytes_eqb (take n d_name) asset).
Qed.

(** The entries of [names] that [read_asset_metrics] reads with success. *)
Lemma read_asset_metrics_loop_err (w : world) (names : list bytes)
    (asset : bytes) (err : Z) (metrics : gmap bytes Metric) :
  fst (read_asset_metrics_loop w names asset err metrics)
  = if existsb (fun d_name => is_metric_of asset d_name
                              && is_ok (read_value w d_name true)) names
    then 0%Z else err.
Proof.
  revert err metrics. induction names as [|d_name rest IH]; intros err metrics.
  - done.
  - rewrite read_asset_metrics_loop_cons. cbn [existsb].
    destruct (is_metric_of asset d_name); cbn [andb orb]; [|apply IH].
    destruct (read_value w d_name true) as [[v u]|e]; cbn [is_ok orb].
    + rewrite IH. by destruct (existsb _ rest).
    + apply IH.
Qed.

Lemma read_asset_metrics_loop_none (w : world) (names : list bytes)
    (asset : bytes) (err : Z) (metrics : gmap bytes Metric) :
  existsb (fun d_name => is_metric_of asset d_name
                         && is_ok (read_value w d_name true)) names = false ->
  snd (read_asset_metrics_loop w names asset err metrics) = metrics.
Proof.
  revert err metrics. induction names as [|d_name rest IH]; intros err metrics.
  - done.
  - rewrite read_asset_metrics_loop_cons. cbn [existsb].
    intros [Hd Hrest]%orb_false_iff.
    destruct (is_metric_of asset d_name); cbn [andb] in Hd; [|by apply IH].
    destruct (read_value w d_name true) as [[v u]|e]; [done|by apply IH].
Qed.

Lemma read_value_unit (w : world) (d_name : bytes) (v : c_string)
    (u : option bytes) :
  read_value w d_name true = Ok (v, u) -> is_Some u.
Proof.
  unfold read_value. destruct (open_rdonly w d_name); [|done].
  destruct (read_buf _ _); [|done]. destruct (parse_ttl _); [|done].
  destruct (_ && _); [done|]. intros [= _ <-]. eauto.
Qed.

(** Whatever the map holds after the loop was there before or was read from
    an entry of [names]. *)
Lemma read_asset_metrics_loop_lookup (w : world) (names : list bytes)
    (asset : bytes) (err : Z) (metrics : gmap bytes Metric) (k : bytes)
    (m : Metric) :
  snd (read_asset_metrics_loop w names asset err metrics) !! k = Some m ->
  metrics !! k = Some m
  \/ exists d_name, In d_name names /\ is_metric_of asset d_name = true
       /\ metric_key d_name = k
       /\ read_value w d_name true = Ok (value m, Some (unit m)).
Proof.
  revert err metrics. induction names as [|d_name rest IH]; intros err metrics.
  - by left.
  - rewrite read_asset_metrics_loop_cons.
    assert (Hrest : forall err metrics,
      snd (read_asset_metrics_loop w rest asset err metrics) !! k = Some m ->
      metrics !! k = Some m
      \/ exists d_name', In d_name' (d_name :: rest)
           /\ is_metric_of asset d_name' = true /\ metric_key d_name' = k
           /\ read_value w d_name' true = Ok (value m, Some (unit m))).
    { intros err' metrics' [H|(d' & Hin & H)]%IH; [by left|].
      right. exists d'. split; [by right|done]. }
    destruct (is_metric_of asset d_name) eqn:Hd; [|apply Hrest].
    destruct (read_value w d_name true) as [[v u]|e] eqn:Hread; [|apply Hrest].
    intros [H|H]%Hrest; [|by right].
    unfold emplace in H. destruct (metrics !! metric_key d_name) eqn:Hk; [by left|].
    destruct (decide (metric_key d_name = k)) as [<-|Hne].
    + rewrite lookup_insert_eq in H. injection H as <-.
      right. exists d_name. split; [by left|]. repeat split; [done|].
      destruct (read_value_unit _ _ _ _ Hread) as [u' ->]. done.
    + rewrite lookup_insert_ne in H by done. by left.
Qed.

Lemma In_opendir (w : world) (names : list bytes) (d_name : bytes) :
  opendir w = Ok names -> In d_name names ->
  d_name = DOT \/ d_name = DOTDOT \/ is_Some (entry w d_name).
Proof.
  unfold opendir, entry. destruct (root w) as [d|]; [|done].
  intros [= <-] [<-|[<-|Hin]]; [by left|by right; left|].
  right. right. simpl. apply list_elem_of_In, list_elem_of_fmap in Hin.
  destruct Hin as ([k f] & -> & Hkf). apply elem_of_map_to_list in Hkf.
  simpl. eauto.
Qed.

Lemma opendir_In (w : world) (d : gmap bytes file) (d_name : bytes) :
  root w = Some d -> is_Some (d !! d_name) ->
  exists names, opendir w = Ok names /\ In d_name names.
Proof.
  intros Hd [f Hf]. unfold opendir. rewrite Hd. eexists. split; [done|].
  right. right. apply list_elem_of_In, list_elem_of_fmap.
  exists (d_name, f). split; [done|]. by apply elem_of_map_to_list.
Qed.

Lemma is_metric_of_not_dots (asset : bytes) :
  is_metric_of asset DOT = false /\ is_metric_of asset DOTDOT = false.
Proof. by vm_compute. Qed.

Lemma existsb_read_asset_metrics (w : world) (names : list bytes) (asset : bytes) :
  opendir w = Ok names ->
  existsb (fun d_name => is_metric_of asset d_name
                         && is_ok (read_value w d_name true)) names = true
  <-> exists d_name, is_Some (entry w d_name)
        /\ is_metric_of asset d_name = true
        /\ is_ok (read_value w d_name true) = true.
Proof.
  intros Hnames. rewrite existsb_exists. split.
  - intros (d_name & Hin & [Hm Hr]%andb_true_iff). exists d_name.
    destruct (is_metric_of_not_dots asset) as [Hdot Hdotdot].
    destruct (In_opendir _ _ _ Hnames Hin) as [->|[->|He]]; [congruence..|done].
  - intros (d_name & He & Hm & Hr).
    unfold entry in He. destruct (root w) as [d|] eqn:Hd; [|by destruct He].
    destruct (opendir_In w d d_name Hd He) as (names' & Hnames' & Hin).
    assert (names' = names) as -> by congruence.
    exists d_name. by rewrite Hm, Hr.
Qed.

(** C5, as the code has it: [read_asset_metrics] returns 0 exactly when the
    directory holds an entry [asset:key.metric] that [read_value] reads with
    success; otherwise it returns -1, and when the directory could be listed
    the map is left empty. *)
Theorem read_asset_metrics_result (w : world) (asset : bytes)
    (metrics : gmap bytes Metric) :
  (fst (read_asset_metrics w asset metrics) = 0%Z
   <-> exists d_name, is_Some (entry w d_name)
         /\ is_metric_of asset d_name = true
         /\ is_ok (read_value w d_name true) = true)
  /\ (fst (read_asset_metrics w asset metrics) <> 0%Z ->
      fst (read_asset_metrics w asset metrics) = (-1)%Z
      /\ (is_ok (opendir w) = true ->
          snd (read_asset_metrics w asset metrics) = ∅)).
Proof.
  unfold read_asset_metrics.
  destruct (opendir w) as [names|e] eqn:Hnames; cbn [fst snd is_ok].
  - cbv zeta. rewrite read_asset_metrics_loop_err.
    rewrite <- (existsb_read_asset_metrics w names asset Hnames).
    destruct (existsb _ names) eqn:Hex.
    + split; [done|]. by intros [].
    + split; [done|]. intros _. split; [done|]. intros _.
      by apply read_asset_metrics_loop_none.
  - split; [|done]. split; [done|].
    intros (d_name & He & _). unfold opendir, entry in *.
    destruct (root w); [done|]. by destruct He.
Qed.

Lemma read_asset_metrics_result_witness :
  fst (read_asset_metrics no_shm_dir (bytes_of "assetA") ∅) = (-1)%Z.
Proof.
  apply (proj2 (read_asset_metrics_result no_shm_dir (bytes_of "assetA") ∅)).
  by vm_compute.
Defined.

(** C5, as the claim has it, fails: in a directory that can be listed and
    holds no entry of the asset, [read_asset_metrics] returns -1. *)
Lemma read_asset_metrics_fails_without_entries :
  is_ok (opendir empty_world) = true
  /\ read_asset_metrics empty_world (bytes_of "assetA") ∅ = ((-1)%Z, ∅).
Proof. split; by vm_compute. Qed.

(** ** find_assets *)

Lemma find_assets_loop_In (names : list bytes) (seen : gset bytes)
    (assets : list bytes) (a : bytes) :
  In a (find_assets_loop names seen assets) ->
  In a assets
  \/ exists d_name n, In d_name names /\ strchr d_name ":" = Some n
       /\ a = take n d_name.
Proof.
  revert seen assets. induction names as [|d_name rest IH]; intros seen assets.
  - by left.
  - cbn [find_assets_loop].
    assert (Hrest : forall seen assets,
      In a (find_assets_loop rest seen assets) ->
      In a assets
      \/ exists d_name' n, In d_name' (d_name :: rest)
           /\ strchr d_name' ":" = Some n /\ a = take n d_name').
    { intros seen' assets' [H|(d' & n & Hin & H)]%IH; [by left|].
      right. exists d', n. split; [by right|done]. }
    destruct (strchr d_name ":") as [n|] eqn:Hn; [|apply Hrest].
    cbv zeta. destruct (bool_decide _); [apply Hrest|].
    intros [[H|[<-|[]]]%in_app_or|H]%Hrest; [by left| |by right].
    right. exists d_name, n. split; [by left|done].
Qed.

(** ** The output containers *)

(** C10: after a successful [find_assets] or [read_asset_metrics] the
    container of the caller holds what the same call puts in an empty
    container, and each element of it comes from an entry of the directory:
    an asset is the part of an entry name before its first colon, a metric
    was read from the entry [asset:key.metric]. *)
Theorem scan_output_is_fresh (w : world) (assets : list bytes) (asset : bytes)
    (metrics : gmap bytes Metric) :
  (fst (find_assets w assets) = 0%Z ->
   snd (find_assets w assets) = snd (find_assets w [])
   /\ forall a, In a (snd (find_assets w assets)) ->
        exists d_name n, is_Some (entry w d_name)
          /\ strchr d_name ":" = Some n /\ a = take n d_name)
  /\ (fst (read_asset_metrics w asset metrics) = 0%Z ->
      snd (read_asset_metrics w asset metrics)
      = snd (read_asset_metrics w asset ∅)
      /\ forall k m, snd (read_asset_metrics w asset metrics) !! k = Some m ->
           exists d_name, is_Some (entry w d_name)
             /\ d_name = asset ++ bytes_of ":" ++ k ++ METRIC_SUFFIX
             /\ read_value w d_name true = Ok (value m, Some (unit m))).
Proof.
  unfold find_assets, read_asset_metrics.
  destruct (opendir w) as [names|e] eqn:Hnames; cbn [fst snd]; [|done].
  split; intros _; (split; [done|]).
  - intros a [[]|(d_name & n & Hin & Hn & ->)]%find_assets_loop_In.
    exists d_name, n.
    destruct (In_opendir _ _ _ Hnames Hin) as [->|[->|He]]; [done..|].
    done.
  - intros k m [H|(d_name & Hin & Hm & <- & Hread)]%read_asset_metrics_loop_lookup;
      [by rewrite lookup_empty in H|].
    exists d_name.
    destruct (is_metric_of_not_dots asset) as [Hdot Hdotdot].
    destruct (In_opendir _ _ _ Hnames Hin) as [->|[->|He]]; [congruence..|].
    split; [done|]. split; [by apply metric_name_split|done].
Qed.

Lemma scan_output_is_fresh_witness :
  snd (find_assets foreign_world [bytes_of "stale"]) = snd (find_assets foreign_world [])
  /\ snd (read_asset_metrics
            (snd (write_metric LINUX_NAME_MAX empty_world (bytes_of "a")
                    (bytes_of "m") (bytes_of "v") (bytes_of "u") 0))
            (bytes_of "a")
            {[ bytes_of "old" := mkMetric (Str (bytes_of "1")) (bytes_of "u") ]})
     = snd (read_asset_metrics
              (snd (write_metric LINUX_NAME_MAX empty_world (bytes_of "a")
                      (bytes_of "m") (bytes_of "v") (bytes_of "u") 0))
              (bytes_of "a") ∅).
Proof.
  split.
  - apply (proj1 (scan_output_is_fresh foreign_world [bytes_of "stale"] [] ∅)).
    reflexivity.
  - apply (proj2 (scan_output_is_fresh _ [] (bytes_of "a") _)).
    by vm_compute.
Defined.

(** ** Entries that are not metric files *)

(** C4, on the code: [find_assets] and [fty_shm_delete_asset] look for the
    colon only, [fty_shm_cleanup] for the suffix only.  In [foreign_world]
    the entry [foo:bar] is returned as the asset [foo] and is unlinked by
    the deletion of [foo]; the entry [old.metric] is unlinked by cleanup. *)
Theorem scans_take_foreign_entries :
  has_metric_suffix (bytes_of "foo:bar") = false
  /\ strchr (bytes_of "old.metric") ":" = None
  /\ find_assets foreign_world [] = (0%Z, [bytes_of "foo"])
  /\ is_Some (entry foreign_world (bytes_of "foo:bar"))
  /\ entry (snd (fty_shm_delete_asset foreign_world (bytes_of "foo")))
       (bytes_of "foo:bar") = None
  /\ is_Some (entry foreign_world (bytes_of "old.metric"))
  /\ entry (snd (fty_shm_cleanup quiet foreign_world)) (bytes_of "old.metric")
     = None.
Proof. repeat split; try (by vm_compute); by eexists. Qed.

(** ** cleanup *)

Lemma unlink_Ok (w w' : world) (name : bytes) :
  unlink w name = Ok w' ->
  clock w' = clock w
  /\ forall m, entry w' m = if decide (m = name) then None else entry w m.
Proof.
  unfold unlink, entry. destruct (root w) as [d|]; [|done].
  destruct (d !! name); [|done]. intros [= <-]. split; [done|].
  intros m. simpl. destruct (decide (m = name)) as [->|Hne].
  - apply lookup_delete_eq.
  - by apply lookup_delete_ne.
Qed.

Lemma renameat_Ok (w w' : world) (src dst : bytes) :
  renameat w src dst = Ok w' ->
  clock w' = clock w
  /\ forall m, entry w' m = if decide (m = dst) then entry w src
                            else if decide (m = src) then None else entry w m.
Proof.
  unfold renameat, entry. destruct (root w) as [d|]; [|done].
  destruct (d !! src) as [f|] eqn:Hf; [|done]. intros [= <-]. split; [done|].
  intros m. simpl. destruct (decide (m = dst)) as [->|Hne].
  - by rewrite lookup_insert_eq.
  - rewrite lookup_insert_ne by done. destruct (decide (m = src)) as [->|Hne'].
    + apply lookup_delete_eq.
    + by apply lookup_delete_ne.
Qed.

Lemma renameat_entry (w : world) (src dst : bytes) (f : file) :
  entry w src = Some f -> exists w', renameat w src dst = Ok w'.
Proof.
  unfold renameat, entry. destruct (root w) as [d|]; [|done]. simpl.
  intros ->. eauto.
Qed.

Lemma rename_noreplace_Ok (w w' : world) (src dst : bytes) :
  rename_noreplace w src dst = Ok w' ->
  clock w' = clock w
  /\ forall m, entry w' m = if decide (m = dst) then entry w src
                            else if decide (m = src) then None else entry w m.
Proof.
  unfold rename_noreplace. intros H. apply renameat_Ok. unfold renameat.
  destruct (root w) as [d|]; [|done]. destruct (d !! src); [|done].
  by destruct (d !! dst).
Qed.


Lemma unlink_entry (w : world) (name : bytes) (f : file) :
  entry w name = Some f -> exists w', unlink w name = Ok w'.
Proof.
  unfold unlink, entry. destruct (root w) as [d|]; [|done]. simpl.
  intros ->. eauto.
Qed.

Lemma fstatat_entry (w : world) (name : bytes) :
  fstatat w name = match entry w name with Some f => Ok f | None => Err ENOENT end.
Proof. reflexivity. Qed.

(** Case analysis on the decisions met in a goal about entries. *)
Ltac entry_cases :=
  repeat match goal with
    | |- context [decide (?a = ?b)] => destruct (decide (a = b)); try congruence
    end.

Lemma restore_other (w : world) (d_name : bytes) (err : Z) (m : bytes) :
  m <> d_name -> m <> DELETE ->
  clock (snd (restore w d_name err)) = clock w
  /\ entry (snd (restore w d_name err)) m = entry w m.
Proof.
  intros Hm Hdel. unfold restore.
  destruct (rename_noreplace w DELETE d_name) as [w1|] eqn:H1; cbn [snd].
  - destruct (rename_noreplace_Ok _ _ _ _ H1) as [-> ->]. by entry_cases.
  - destruct (unlink w DELETE) as [w1|] eqn:H2; [|done].
    destruct (unlink_Ok _ _ _ H2) as [-> ->]. by entry_cases.
Qed.

(** Alone, the removal of one entry leaves the other entries and the clock
    as they were, whatever the other entries are. *)
Lemma cleanup_remove_quiet_other (d_name : bytes) (st1 : file) (err : Z)
    (w : world) (m : bytes) :
  m <> d_name -> m <> DELETE ->
  clock (snd (cleanup_remove quiet d_name st1 err w)) = clock w
  /\ entry (snd (cleanup_remove quiet d_name st1 err w)) m = entry w m.
Proof.
  intros Hm Hdel. unfold cleanup_remove, quiet.
  destruct (renameat w d_name DELETE) as [w1|] eqn:H1; [|done].
  destruct (renameat_Ok _ _ _ _ H1) as [Hc1 He1].
  assert (He1m : entry w1 m = entry w m) by (rewrite He1; by entry_cases).
  destruct (fstatat w1 DELETE) as [st2|]; [|done].
  destruct (_ && _).
  - destruct (unlink w1 DELETE) as [w2|] eqn:H2; [|done].
    destruct (unlink_Ok _ _ _ H2) as [Hc2 He2]. cbn [snd].
    rewrite Hc2, He2. split; [done|]. by entry_cases.
  - destruct (restore_other w1 d_name err m Hm Hdel) as [-> ->]. done.
Qed.

Lemma cleanup_entry_quiet_other (d_name : bytes) (err : Z) (w : world)
    (m : bytes) :
  m <> d_name -> m <> DELETE ->
  clock (snd (cleanup_entry quiet d_name err w)) = clock w
  /\ entry (snd (cleanup_entry quiet d_name err w)) m = entry w m.
Proof.
  intros Hm Hdel. unfold cleanup_entry.
  destruct (cleanup_examine w d_name); [done..|].
  by apply cleanup_remove_quiet_other.
Qed.

Lemma cleanup_loop_quiet_other (names : list bytes) (err : Z) (w : world)
    (m : bytes) :
  ~ In m names -> m <> DELETE ->
  clock (snd (cleanup_loop quiet names err w)) = clock w
  /\ entry (snd (cleanup_loop quiet names err w)) m = entry w m.
Proof.
  revert err w. induction names as [|d_name rest IH]; intros err w Hin Hdel.
  - done.
  - cbn [cleanup_loop].
    destruct (cleanup_entry quiet d_name err w) as [err1 w1] eqn:H1.
    assert (Hm : m <> d_name) by (intros ->; apply Hin; by left).
    destruct (cleanup_entry_quiet_other d_name err w m Hm Hdel) as [Hc He].
    rewrite H1 in Hc, He. cbn [snd] in Hc, He.
    destruct (IH err1 w1) as [-> ->]; [|done..].
    intros ?. apply Hin. by right.
Qed.

Lemma cleanup_loop_app (env : interference) (l1 l2 : list bytes) (err : Z)
    (w : world) :
  cleanup_loop env (l1 ++ l2) err w
  = cleanup_loop env l2 (fst (cleanup_loop env l1 err w))
      (snd (cleanup_loop env l1 err w)).
Proof.
  revert err w. induction l1 as [|d_name l1 IH]; intros err w; [done|].
  cbn [app cleanup_loop]. by destruct (cleanup_entry env d_name err w).
Qed.

(** A name with the suffix is not a directory and is not [.delete]. *)
Lemma has_metric_suffix_name (d_name : bytes) :
  has_metric_suffix d_name = true ->
  is_dir_name d_name = false /\ d_name <> DELETE
  /\ d_name <> DOT /\ d_name <> DOTDOT.
Proof.
  intros H. pose proof (has_metric_suffix_length _ H) as Hlen.
  repeat split.
  - unfold is_dir_name, bytes_eqb.
    rewrite !bool_decide_eq_false_2; [done|intros ->; vm_compute in Hlen; lia..].
  - by intros ->.
  - intros ->. vm_compute in Hlen. lia.
  - intros ->. vm_compute in Hlen. lia.
Qed.

(** The test that [fty_shm_cleanup] makes on a metric file. *)
Lemma cleanup_examine_record (w : world) (d_name : bytes) (st : file) (T : Z) :
  has_metric_suffix d_name = true -> entry w d_name = Some st ->
  PAYLOAD_START <= st_size st -> parse_ttl (contents st) = Ok T ->
  cleanup_examine w d_name
  = if bool_decide (T = 0%Z) then Keep
    else if (Z.quot (clock w - st_mtime st) 2 <=? T)%Z then Keep
    else Expired st.
Proof.
  intros Hsuf Hst Hsize Httl. unfold cleanup_examine.
  pose proof (has_metric_suffix_length _ Hsuf) as Hlen.
  destruct (has_metric_suffix_name _ Hsuf) as (Hdir & _).
  destruct (Nat.ltb_spec (length d_name) SUFFIX_LEN) as [?|_]; [lia|].
  rewrite Hsuf. cbn [negb].
  rewrite (proj2 (open_rdonly_Ok w d_name st)) by done.
  destruct (Nat.ltb_spec (st_size st) PAYLOAD_START) as [?|_]; [lia|].
  unfold read_buf.
  destruct (Nat.ltb_spec (st_size st) (TTL_LEN + 1)) as [?|_]; [layout|].
  unfold st_size in Hsize. rewrite parse_ttl_take by layout. by rewrite Httl.
Qed.

(** Alone, the removal of an entry that is there unlinks it. *)
Lemma cleanup_remove_quiet_self (d_name : bytes) (st : file) (err : Z)
    (w : world) :
  d_name <> DELETE -> entry w d_name = Some st ->
  fst (cleanup_remove quiet d_name st err w) = err
  /\ entry (snd (cleanup_remove quiet d_name st err w)) d_name = None.
Proof.
  intros Hdel Hst. unfold cleanup_remove, quiet.
  destruct (renameat_entry w d_name DELETE st Hst) as [w1 H1]. rewrite H1.
  destruct (renameat_Ok _ _ _ _ H1) as [Hc1 He1].
  assert (Hd1 : entry w1 DELETE = Some st).
  { rewrite He1. by rewrite decide_True. }
  rewrite fstatat_entry, Hd1. rewrite !bool_decide_eq_true_2 by done.
  cbn [andb]. destruct (unlink_entry w1 DELETE st Hd1) as [w2 H2]. rewrite H2.
  destruct (unlink_Ok _ _ _ H2) as [Hc2 He2]. cbn [fst snd].
  split; [done|]. rewrite He2, He1. by entry_cases.
Qed.

Lemma quot_2_threshold (e T : Z) :
  (0 <= T)%Z -> (T < Z.quot e 2)%Z <-> (2 * T + 2 <= e)%Z.
Proof.
  intros HT. destruct (Z.le_gt_cases 0 e) as [He|He].
  - rewrite Z.quot_div_nonneg by lia.
    pose proof (Z.div_mod e 2 ltac:(lia)).
    pose proof (Z.mod_pos_bound e 2 ltac:(lia)). lia.
  - assert (Z.quot e 2 <= 0)%Z; [|lia].
    replace e with (- (- e))%Z by lia. rewrite Z.quot_opp_l by lia.
    rewrite Z.quot_div_nonneg by lia.
    pose proof (Z.div_pos (- e) 2 ltac:(lia) ltac:(lia)). lia.
Qed.

Lemma cleanup_entry_quiet_record (w : world) (d_name : bytes) (st : file)
    (T err : Z) :
  has_metric_suffix d_name = true -> entry w d_name = Some st ->
  PAYLOAD_START <= st_size st -> parse_ttl (contents st) = Ok T ->
  entry (snd (cleanup_entry quiet d_name err w)) d_name
  = if bool_decide (T = 0%Z) then Some st
    else if (Z.quot (clock w - st_mtime st) 2 <=? T)%Z then Some st
    else None.
Proof.
  intros Hsuf Hst Hsize Httl. unfold cleanup_entry.
  rewrite (cleanup_examine_record w d_name st T) by done.
  destruct (bool_decide (T = 0%Z)); [done|].
  destruct (Z.quot (clock w - st_mtime st) 2 <=? T)%Z; [done|].
  destruct (has_metric_suffix_name _ Hsuf) as (_ & Hdel & _).
  by destruct (cleanup_remove_quiet_self d_name st err w Hdel Hst) as [_ ->].
Qed.

(** What [fty_shm_cleanup], alone, does to one metric file. *)
Lemma cleanup_quiet_record (w : world) (d_name : bytes) (st : file) (T : Z) :
  entry w d_name = Some st -> has_metric_suffix d_name = true ->
  PAYLOAD_START <= st_size st -> parse_ttl (contents st) = Ok T ->
  entry (snd (fty_shm_cleanup quiet w)) d_name
  = if bool_decide (T = 0%Z) then Some st
    else if (Z.quot (clock w - st_mtime st) 2 <=? T)%Z then Some st
    else None.
Proof.
  intros Hst Hsuf Hsize Httl.
  destruct (has_metric_suffix_name _ Hsuf) as (_ & Hdel & Hdot & Hdotdot).
  unfold fty_shm_cleanup, opendir.
  pose proof Hst as Hst'. unfold entry in Hst'.
  destruct (root w) as [d|] eqn:Hd; [|done]. simpl in Hst'.
  assert (Hin : In d_name (map_to_list d).*1).
  { apply list_elem_of_In, list_elem_of_fmap. exists (d_name, st).
    split; [done|]. by apply elem_of_map_to_list. }
  pose proof (NoDup_fst_map_to_list d) as Hnodup.
  destruct (in_split _ _ Hin) as (l1 & l2 & Hsplit).
  rewrite Hsplit in Hnodup |- *. apply NoDup_ListNoDup in Hnodup.
  apply NoDup_remove_2 in Hnodup.
  assert (Hl1 : ~ In d_name (DOT :: DOTDOT :: l1)).
  { intros [?|[?|?]]; [done..|]. apply Hnodup, in_or_app. by left. }
  assert (Hl2 : ~ In d_name l2).
  { intros ?. apply Hnodup, in_or_app. by right. }
  change (DOT :: DOTDOT :: l1 ++ d_name :: l2)
    with ((DOT :: DOTDOT :: l1) ++ d_name :: l2).
  rewrite cleanup_loop_app.
  destruct (cleanup_loop_quiet_other (DOT :: DOTDOT :: l1) 0 w d_name Hl1 Hdel)
    as [Hc1 He1].
  set (w1 := snd (cleanup_loop quiet (DOT :: DOTDOT :: l1) 0 w)) in *.
  set (err1 := fst (cleanup_loop quiet (DOT :: DOTDOT :: l1) 0 w)).
  cbn [cleanup_loop].
  destruct (cleanup_entry quiet d_name err1 w1) as [err2 w2] eqn:H2.
  destruct (cleanup_loop_quiet_other l2 err2 w2 d_name Hl2 Hdel) as [_ ->].
  rewrite <- He1 in Hst.
  pose proof (cleanup_entry_quiet_record w1 d_name st T err1 Hsuf Hst Hsize Httl)
    as Hself.
  rewrite H2 in Hself. cbn [snd] in Hself. by rewrite Hself, Hc1.
Qed.

(** C1, as the code has it: alone, [fty_shm_cleanup] leaves a metric file
    whose TTL field reads 0; it unlinks one whose TTL field reads [T > 0]
    exactly when [(now - st_mtime) / 2 > T] in the division of C, that is
    when [now - st_mtime >= 2 T + 2]; otherwise the file stays as it is. *)
Theorem cleanup_threshold (w : world) (d_name : bytes) (st : file) (T : Z) :
  entry w d_name = Some st -> has_metric_suffix d_name = true ->
  PAYLOAD_START <= st_size st -> parse_ttl (contents st) = Ok T ->
  (T = 0%Z -> entry (snd (fty_shm_cleanup quiet w)) d_name = Some st)
  /\ ((0 < T)%Z ->
      (entry (snd (fty_shm_cleanup quiet w)) d_name = None
       <-> (T < Z.quot (clock w - st_mtime st) 2)%Z)
      /\ (entry (snd (fty_shm_cleanup quiet w)) d_name = None
          <-> (2 * T + 2 <= clock w - st_mtime st)%Z)
      /\ (entry (snd (fty_shm_cleanup quiet w)) d_name <> None ->
          entry (snd (fty_shm_cleanup quiet w)) d_name = Some st)).
Proof.
  intros Hst Hsuf Hsize Httl.
  rewrite (cleanup_quiet_record w d_name st T) by done.
  split.
  - intros ->. done.
  - intros HT. rewrite bool_decide_eq_false_2 by lia.
    rewrite <- (quot_2_threshold _ T) by lia.
    destruct (Z.leb_spec (Z.quot (clock w - st_mtime st) 2) T).
    + repeat split; try done; lia.
    + repeat split; done.
Qed.

Lemma cleanup_threshold_witness :
  entry (snd (fty_shm_cleanup quiet foreign_world)) (bytes_of "old.metric")
  = None.
Proof.
  destruct (cleanup_threshold foreign_world (bytes_of "old.metric")
              (File 0 2 0 (encode_record (bytes_of "v") (bytes_of "u") 1)) 1)
    as [_ H]; [reflexivity|reflexivity|vm_compute; lia|reflexivity|].
  destruct (H ltac:(lia)) as (_ & [_ H2] & _). apply H2.
  vm_compute. discriminate.
Defined.

(** C1, as the claim has it, fails: a record with ttl 1 written at time 0
    has gone 3 seconds without a write at time 3, more than twice its ttl,
    and cleanup leaves it. *)
Lemma cleanup_keeps_record_at_2T_plus_1 :
  let w := set_clock (snd (write_metric LINUX_NAME_MAX empty_world
                             (bytes_of "a") (bytes_of "m") (bytes_of "v")
                             (bytes_of "u") 1)) 3 in
  exists st,
    entry w (bytes_of "a:m.metric") = Some st
    /\ parse_ttl (contents st) = Ok 1%Z
    /\ (clock w - st_mtime st > 2 * 1)%Z
    /\ entry (snd (fty_shm_cleanup quiet w)) (bytes_of "a:m.metric") = Some st.
Proof.
  eexists. split; [by vm_compute|]. split; [by vm_compute|].
  split; by vm_compute.
Qed.

(** ** cleanup among other processes *)

Lemma cleanup_examine_Expired (w : world) (d_name : bytes) (st1 : file) :
  cleanup_examine w d_name = Expired st1 -> has_metric_suffix d_name = true.
Proof.
  unfold cleanup_examine. destruct (_ <? _); [done|].
  by destruct (has_metric_suffix d_name).
Qed.







(** * Further properties of the code *)

(** ** The TTL field *)

Lemma span_spec (p : ascii -> bool) (s a r : bytes) :
  span p s = (a, r) -> s = a ++ r /\ Forall (fun c => p c = true) a.
Proof.
  revert a r. induction s as [|c s IH]; intros a r; simpl.
  - intros [= <- <-]. by split.
  - destruct (p c) eqn:Hc.
    + destruct (span p s) as [a' r']. intros [= <- <-].
      destruct (IH a' r' eq_refl) as [-> Ha]. split; [done|by constructor].
    + intros [= <- <-]. by split.
Qed.

Lemma c_str_length_le (s : bytes) (i : nat) :
  s !! i = Some NUL -> length (c_str s) <= i.
Proof.
  revert i. induction s as [|c s IH]; intros i Hi; [done|]. simpl.
  destruct (is_nul c) eqn:Hc; [simpl; lia|].
  destruct i as [|i]; simpl in Hi.
  - injection Hi as ->. done.
  - simpl. apply IH in Hi. lia.
Qed.

Lemma c_str_prefix (s : bytes) :
  take (length (c_str s)) s = c_str s /\ has_nul (c_str s) = false.
Proof.
  induction s as [|c s [IH1 IH2]]; [done|]. simpl.
  destruct (is_nul c) eqn:Hc; [done|]. simpl. by rewrite IH1, Hc, IH2.
Qed.

Lemma to_int_range (z : Z) : (- 2 ^ 31 <= to_int z < 2 ^ 31)%Z.
Proof.
  unfold to_int. pose proof (Z.mod_pos_bound (z + 2 ^ 31) (2 ^ 32)). lia.
Qed.

(** What [strtol] has consumed, when it has consumed anything, ends in a
    digit. *)
Lemma strtol_consumed (s : bytes) (v : Z) (n : nat) :
  strtol s = (v, n) -> n <> 0 ->
  n <= length s /\ exists c, s !! (n - 1) = Some c /\ isdigit c = true.
Proof.
  unfold strtol.
  destruct (span isspace s) as [ws s1] eqn:Hws.
  destruct (span_spec _ _ _ _ Hws) as [-> _].
  set (sg := match s1 with
             | [] => (false, s1, 0)
             | c :: r => if Ascii.eqb c "-" then (true, r, 1)
                         else if Ascii.eqb c "+" then (false, r, 1)
                         else (false, s1, 0)
             end).
  assert (Hsg : exists sign, s1 = sign ++ sg.1.2 /\ length sign = sg.2).
  { unfold sg. destruct s1 as [|c r]; [by exists []|].
    destruct (Ascii.eqb c "-"); [by exists [c]|].
    destruct (Ascii.eqb c "+"); [by exists [c]|]. by exists []. }
  destruct sg as [[neg s2] sign_len]. destruct Hsg as (sign & -> & Hlen).
  cbn [fst snd] in *.
  destruct (span isdigit s2) as [ds r] eqn:Hds.
  destruct (span_spec _ _ _ _ Hds) as [-> Hdig].
  destruct (snoc_case ds) as [->|(ds' & c & ->)]; [by intros [= _ <-]|].
  destruct (ds' ++ [c]) as [|x l] eqn:Hx; [by destruct ds'|].
  rewrite <- Hx in *. intros [= _ <-] _.
  rewrite !length_app. simpl length. split; [lia|].
  exists c. split.
  - replace (ws ++ sign ++ (ds' ++ [c]) ++ r)
      with ((ws ++ sign ++ ds') ++ c :: r) by (by app_norm).
    replace (length ws + sign_len + (length ds' + 1) - 1)
      with (length (ws ++ sign ++ ds')) by (rewrite !length_app; lia).
    by apply list_lookup_middle.
  - apply Forall_app in Hdig as [_ Hc]. by apply Forall_inv in Hc.
Qed.

(** X2: [parse_ttl] fails with [ERANGE] only; when it succeeds, the ten
    bytes of the field hold no NUL, the last of them is a digit and the
    value is in the range of [int]. *)
Theorem parse_ttl_inv (ttl_str : bytes) :
  TTL_LEN < length ttl_str ->
  match parse_ttl ttl_str with
  | Ok ttl =>
      (- 2 ^ 31 <= ttl < 2 ^ 31)%Z
      /\ has_nul (take TTL_LEN ttl_str) = false
      /\ exists c, ttl_str !! (TTL_LEN - 1) = Some c /\ isdigit c = true
  | Err e => e = ERANGE
  end.
Proof.
  intros Hlen. unfold parse_ttl.
  set (buf := <[TTL_LEN := NUL]> ttl_str).
  destruct (strtol (c_str buf)) as [v n] eqn:Hstrtol.
  destruct (decide (n = TTL_LEN)) as [->|Hn].
  2:{ by rewrite bool_decide_eq_true_2. }
  rewrite bool_decide_eq_false_2 by (intros H; by apply H).
  destruct (strtol_consumed _ _ _ Hstrtol) as (Hle & c & Hc & Hdig); [done|].
  assert (Hnul : buf !! TTL_LEN = Some NUL) by (by apply list_lookup_insert_eq).
  pose proof (c_str_length_le _ _ Hnul) as Hge.
  assert (Hlen' : length (c_str buf) = TTL_LEN) by lia.
  destruct (c_str_prefix buf) as [Htake Hfree]. rewrite Hlen' in Htake.
  assert (Htake' : take TTL_LEN ttl_str = c_str buf).
  { rewrite <- Htake. unfold buf. by rewrite take_insert_ge. }
  split; [apply to_int_range|]. split; [by rewrite Htake'|].
  exists c. split; [|done].
  rewrite <- Hc, <- Htake'. rewrite lookup_take_lt; [done|]. unfold TTL_LEN. lia.
Qed.

Lemma parse_ttl_inv_witness :
  match parse_ttl (bytes_of "  +0000042" ++ [LF]) with
  | Ok ttl =>
      (- 2 ^ 31 <= ttl < 2 ^ 31)%Z
      /\ has_nul (take TTL_LEN (bytes_of "  +0000042" ++ [LF])) = false
      /\ exists c, (bytes_of "  +0000042" ++ [LF]) !! (TTL_LEN - 1) = Some c
                   /\ isdigit c = true
  | Err e => e = ERANGE
  end.
Proof.
  apply (parse_ttl_inv (bytes_of "  +0000042" ++ [LF])). vm_compute. lia.
Defined.

(** X1: the TTL that [write_value] encodes, from 0 to [INT_MAX], is the TTL
    that [parse_ttl] reads from the record, whatever the value and unit. *)
Theorem ttl_field_round_trip (value unit : bytes) (ttl : Z) :
  (0 <= ttl < 2 ^ 31)%Z -> parse_ttl (encode_record value unit ttl) = Ok ttl.
Proof.
  intros Httl. rewrite <- parse_ttl_insert. by apply parse_ttl_encode_record.
Qed.

Lemma ttl_field_round_trip_witness :
  parse_ttl (encode_record (bytes_of "23.5") (bytes_of "C") 2147483647)
  = Ok 2147483647%Z.
Proof. apply ttl_field_round_trip. lia. Defined.

(** ** Writing a record *)

(** X3: a successful [write_value] leaves under the name a file that starts
    with the 128 bytes of the record and has the time of the write as its
    modification time.  A file that was there keeps its inode and what it
    held beyond the record, so the size is 128 or the former size if that
    was more; the other entries and the clock are as before. *)
Theorem write_value_effect (w w' : world) (filename value unit : bytes)
    (ttl : Z) :
  write_value w filename value unit ttl = (Success, w') ->
  clock w' = clock w
  /\ (forall m, m <> filename -> entry w' m = entry w m)
  /\ exists st,
       entry w' filename = Some st
       /\ take RECORD_LEN (contents st) = encode_record value unit ttl
       /\ st_mtime st = clock w
       /\ st_size st = Nat.max RECORD_LEN (from_option st_size 0 (entry w filename))
       /\ forall old, entry w filename = Some old ->
            st_dev st = st_dev old /\ st_ino st = st_ino old
            /\ drop RECORD_LEN (contents st) = drop RECORD_LEN (contents old).
Proof.
  unfold write_value.
  destruct (Nat.ltb_spec PAYLOAD_LEN (length value)) as [?|Hv]; [done|].
  destruct (Nat.ltb_spec UNIT_LEN (length unit)) as [?|Hu]; [done|].
  pose proof (length_encode_record value unit ttl Hv Hu) as Hlen.
  set (R := encode_record value unit ttl) in *. clearbody R.
  unfold open_creat, pwrite, entry.
  destruct (root w) as [d|] eqn:Hd; [|done].
  destruct (is_dir_name filename); [done|]. cbn [mbind option_bind].
  destruct (d !! filename) as [old|] eqn:Hold.
  - rewrite Hd, Hold. intros [= <-]. cbn [clock root set_root mbind option_bind].
    split; [done|]. split; [intros m Hm; by rewrite lookup_insert_ne|].
    eexists. rewrite lookup_insert_eq. split; [done|].
    cbn [contents st_mtime st_dev st_ino from_option]. unfold st_size.
    cbn [contents]. rewrite Hlen.
    split; [by rewrite <- Hlen, take_app_length|]. split; [done|].
    split; [rewrite length_app, length_drop; lia|].
    intros ? [= <-]. split; [done|]. split; [done|].
    by rewrite <- Hlen at 1; rewrite drop_app_length.
  - cbn [root clock]. rewrite lookup_insert_eq. intros [= <-].
    cbn [clock root set_root mbind option_bind].
    split; [done|]. split.
    { intros m Hm. by rewrite !lookup_insert_ne. }
    eexists. rewrite lookup_insert_eq. split; [done|].
    cbn [contents st_mtime st_dev st_ino from_option]. unfold st_size.
    cbn [contents]. rewrite Hlen. cbn [drop].
    split; [by rewrite <- Hlen, take_app_length|]. split; [done|].
    split; [|done]. rewrite drop_nil, app_nil_r, Hlen. lia.
Qed.

Lemma write_value_effect_witness :
  clock (snd (write_value empty_world (bytes_of "a:m.metric") (bytes_of "v")
                (bytes_of "u") 7)) = clock empty_world.
Proof.
  refine (proj1 (write_value_effect empty_world _ (bytes_of "a:m.metric")
                   (bytes_of "v") (bytes_of "u") 7 _)).
  reflexivity.
Defined.

(** ** Names *)

Lemma memchr_false (s : bytes) (c : ascii) : memchr s c = false -> ~ In c s.
Proof. intros H Hin. apply memchr_spec in Hin. congruence. Qed.

Lemma has_nul_suffix : has_nul METRIC_SUFFIX = false.
Proof. reflexivity. Qed.

(** The name that [prepare_filename] builds from C strings. *)
Lemma prepare_filename_Ok (name_max : nat) (asset metric filename : bytes) :
  has_nul asset = false -> has_nul metric = false ->
  prepare_filename name_max asset metric = Ok filename ->
  filename = asset ++ bytes_of ":" ++ metric ++ METRIC_SUFFIX
  /\ length filename <= name_max
  /\ ~ In ":"%char asset /\ ~ In "/"%char asset
  /\ ~ In ":"%char metric /\ ~ In "/"%char metric.
Proof.
  intros Ha Hm. unfold prepare_filename.
  destruct (Nat.ltb_spec name_max
              (length asset + length (bytes_of ":") + length metric + SUFFIX_LEN))
    as [?|Hlen]; [done|].
  destruct (memchr asset "/") eqn:H1; [done|].
  destruct (memchr asset ":") eqn:H2; [done|].
  destruct (memchr metric "/") eqn:H3; [done|].
  destruct (memchr metric ":") eqn:H4; [done|]. cbn [orb].
  rewrite c_str_no_nul.
  2:{ rewrite !has_nul_app, Ha, Hm. reflexivity. }
  intros [= <-]. split; [done|].
  split.
  { rewrite length_app. cbn [length]. rewrite length_app.
    unfold SUFFIX_LEN in Hlen. cbn [bytes_of list_ascii_of_string length] in Hlen.
    lia. }
  auto using memchr_false.
Qed.

Lemma strchr_app (s rest : bytes) (c : ascii) :
  ~ In c s -> strchr (s ++ c :: rest) c = Some (length s).
Proof.
  induction s as [|x s IH]; intros Hin; simpl.
  - by rewrite Ascii.eqb_refl.
  - destruct (Ascii.eqb_spec x c) as [->|_]; [exfalso; apply Hin; by left|].
    rewrite IH; [done|]. intros ?. apply Hin. by right.
Qed.

Lemma has_metric_suffix_app (s : bytes) :
  has_metric_suffix (s ++ METRIC_SUFFIX) = true.
Proof.
  unfold has_metric_suffix, bytes_eqb. apply bool_decide_eq_true_2.
  apply drop_app_length'. rewrite length_app. unfold SUFFIX_LEN. lia.
Qed.

(** How the scans read a name that [prepare_filename] has built. *)
Lemma prepare_filename_decode (name_max : nat) (asset metric filename : bytes) :
  has_nul asset = false -> has_nul metric = false ->
  prepare_filename name_max asset metric = Ok filename ->
  strchr filename ":" = Some (length asset)
  /\ take (length asset) filename = asset
  /\ has_metric_suffix filename = true
  /\ metric_key filename = metric.
Proof.
  intros Ha Hm Hname.
  destruct (prepare_filename_Ok _ _ _ _ Ha Hm Hname) as (-> & _ & Hcolon & _).
  cbn [bytes_of list_ascii_of_string app].
  assert (Hchr : strchr (asset ++ ":"%char :: metric ++ METRIC_SUFFIX) ":"
                 = Some (length asset)) by (by apply strchr_app).
  split; [done|]. split; [by rewrite take_app_length|]. split.
  - replace (asset ++ ":"%char :: metric ++ METRIC_SUFFIX)
      with ((asset ++ ":"%char :: metric) ++ METRIC_SUFFIX) by (by app_norm).
    apply has_metric_suffix_app.
  - unfold metric_key. rewrite Hchr.
    replace (asset ++ ":"%char :: metric ++ METRIC_SUFFIX)
      with ((asset ++ [":"%char]) ++ metric ++ METRIC_SUFFIX) by (by app_norm).
    rewrite drop_app_length' by (rewrite length_app; simpl; lia).
    rewrite !length_app. cbn [bytes_of list_ascii_of_string length].
    replace (length asset + 1 + (length metric + length METRIC_SUFFIX)
             - length asset - 1 - SUFFIX_LEN) with (length metric)
      by (unfold SUFFIX_LEN; lia).
    by rewrite take_app_length.
Qed.

(** X4: the name that [prepare_filename] builds from an asset and a metric
    (C strings) is read back by the scans as that asset and that metric:
    the first colon is at the end of the asset, the suffix is found, the key
    of [read_asset_metrics] is the metric, and the entry is one of this
    asset and of no other. *)
Theorem metric_name_round_trip (name_max : nat)
    (asset metric filename other : bytes) :
  has_nul asset = false -> has_nul metric = false ->
  prepare_filename name_max asset metric = Ok filename ->
  filename = asset ++ bytes_of ":" ++ metric ++ METRIC_SUFFIX
  /\ strchr filename ":" = Some (length asset)
  /\ has_metric_suffix filename = true
  /\ metric_key filename = metric
  /\ is_metric_of other filename = bytes_eqb asset other.
Proof.
  intros Ha Hm Hname.
  destruct (prepare_filename_decode _ _ _ _ Ha Hm Hname)
    as (Hchr & Htake & Hsuf & Hkey).
  destruct (prepare_filename_Ok _ _ _ _ Ha Hm Hname) as (Heq & _).
  repeat split; try done.
  unfold is_metric_of. rewrite Hchr, Hsuf, Htake.
  pose proof (has_metric_suffix_length _ Hsuf).
  destruct (Nat.ltb_spec (length filename) SUFFIX_LEN); [lia|]. done.
Qed.

Lemma metric_name_round_trip_witness :
  metric_key (bytes_of "assetA:temp.metric") = bytes_of "temp".
Proof.
  refine (proj1 (proj2 (proj2 (proj2 (metric_name_round_trip LINUX_NAME_MAX
            (bytes_of "assetA") (bytes_of "temp") (bytes_of "assetA:temp.metric")
            [] _ _ _))))); reflexivity.
Defined.

(** X5: two pairs of asset and metric (C strings) that [prepare_filename]
    accepts and gives the same file name are the same pair. *)
Theorem prepare_filename_inj (name_max : nat)
    (asset1 metric1 asset2 metric2 filename : bytes) :
  has_nul asset1 = false -> has_nul metric1 = false ->
  has_nul asset2 = false -> has_nul metric2 = false ->
  prepare_filename name_max asset1 metric1 = Ok filename ->
  prepare_filename name_max asset2 metric2 = Ok filename ->
  asset1 = asset2 /\ metric1 = metric2.
Proof.
  intros Ha1 Hm1 Ha2 Hm2 H1 H2.
  destruct (prepare_filename_decode _ _ _ _ Ha1 Hm1 H1) as (Hc1 & Ht1 & _ & Hk1).
  destruct (prepare_filename_decode _ _ _ _ Ha2 Hm2 H2) as (Hc2 & Ht2 & _ & Hk2).
  split; [|congruence].
  rewrite <- Ht1, <- Ht2. congruence.
Qed.

Lemma prepare_filename_inj_witness :
  bytes_of "a" = bytes_of "a" /\ bytes_of "m" = bytes_of "m".
Proof.
  apply (prepare_filename_inj LINUX_NAME_MAX (bytes_of "a") (bytes_of "m")
           (bytes_of "a") (bytes_of "m") (bytes_of "a:m.metric"));
    reflexivity.
Defined.

(** ** Reading a metric *)

(** When byte 21 of a record is neither a space nor a newline the unit has
    11 bytes and the NUL that ends it takes the first byte of the payload:
    the value is read empty with the unit, whole without it. *)
Example read_unit_without_newline :
  let w := World 0 0 2
             (Some {[ bytes_of "a:m.metric" :=
                        File 0 1 0 (bytes_of "0000000000" ++ [LF]
                                    ++ bytes_of "abcdefghijX"
                                    ++ bytes_of "payload" ++ replicate 99 NUL) ]}) in
  read_metric LINUX_NAME_MAX w (bytes_of "a") (bytes_of "m") true
  = Ok (Str [], Some (bytes_of "abcdefghijX"))
  /\ read_metric LINUX_NAME_MAX w (bytes_of "a") (bytes_of "m") false
     = Ok (Str (bytes_of "payload"), None).
Proof. split; by vm_compute. Qed.

(** X6: [read_metric] on an asset and a metric (C strings) whose file is not
    there, or whose directory is not there, fails with [ENOENT]. *)
Theorem read_metric_missing (name_max : nat) (w : world)
    (asset metric filename : bytes) (need_unit : bool) :
  has_nul asset = false -> has_nul metric = false ->
  prepare_filename name_max asset metric = Ok filename ->
  entry w filename = None ->
  read_metric name_max w asset metric need_unit = Err ENOENT.
Proof.
  intros Ha Hm Hname Hnone. unfold read_metric. rewrite Hname.
  destruct (prepare_filename_decode _ _ _ _ Ha Hm Hname) as (_ & _ & Hsuf & _).
  destruct (has_metric_suffix_name _ Hsuf) as (Hdir & _).
  unfold read_value, open_rdonly. unfold entry in Hnone.
  destruct (root w) as [d|]; [|done]. rewrite Hdir.
  simpl in Hnone. by rewrite Hnone.
Qed.

Lemma read_metric_missing_witness :
  read_metric LINUX_NAME_MAX empty_world (bytes_of "assetA") (bytes_of "temp")
    true = Err ENOENT.
Proof.
  apply (read_metric_missing LINUX_NAME_MAX empty_world (bytes_of "assetA")
           (bytes_of "temp") (bytes_of "assetA:temp.metric")); reflexivity.
Defined.

(** X7: [read_metric] on a file shorter than 128 bytes fails with [EIO]; on
    a file of 128 bytes or more whose TTL field [parse_ttl] rejects it fails
    with [ERANGE]. *)
Theorem read_metric_malformed (name_max : nat) (w : world)
    (asset metric filename : bytes) (st : file) (need_unit : bool) :
  prepare_filename name_max asset metric = Ok filename ->
  open_rdonly w filename = Ok st ->
  (st_size st < RECORD_LEN ->
   read_metric name_max w asset metric need_unit = Err EIO)
  /\ (RECORD_LEN <= st_size st -> is_ok (parse_ttl (contents st)) = false ->
      read_metric name_max w asset metric need_unit = Err ERANGE).
Proof.
  intros Hname Hopen. unfold read_metric. rewrite Hname. split.
  - intros Hsize. unfold read_value, read_buf. rewrite Hopen.
    by destruct (Nat.ltb_spec (st_size st) RECORD_LEN) as [_|?]; [|lia].
  - intros Hsize Hbad. rewrite (read_value_record _ _ _ _ Hopen Hsize).
    cbv zeta. unfold st_size in Hsize.
    pose proof (parse_ttl_inv (contents st) ltac:(layout)) as Hinv.
    destruct (parse_ttl (contents st)); [done|]. by subst.
Qed.

Lemma read_metric_malformed_witness :
  read_metric LINUX_NAME_MAX short_file_world (bytes_of "a") (bytes_of "m") true
  = Err EIO.
Proof.
  refine (proj1 (read_metric_malformed LINUX_NAME_MAX short_file_world
                   (bytes_of "a") (bytes_of "m") (bytes_of "a:m.metric")
                   (File 0 1 0 (bytes_of "short")) true _ _) _).
  - reflexivity.
  - reflexivity.
  - vm_compute. lia.
Defined.

(** [read_value] on the file that a [write_metric] has just left. *)
Lemma read_value_written (name_max : nat) (w w' : world)
    (asset metric value unit filename : bytes) (ttl now : Z) (need_unit : bool) :
  write_metric name_max w asset metric value unit ttl = (Success, w') ->
  prepare_filename name_max asset metric = Ok filename ->
  (0 <= ttl < 2 ^ 31)%Z ->
  has_nul value = false -> length value < PAYLOAD_LEN ->
  has_nul unit = false ->
  (forall c, last unit = Some c -> is_pad c = false) ->
  read_value (set_clock w' now) filename need_unit
  = if bool_decide (ttl <> 0%Z) && (ttl <? now - clock w)%Z then Err ESTALE
    else Ok (Str value, if need_unit then Some unit else None).
Proof.
  intros Hwrite Hname Httl Hvnul Hvlen Hunul Hulast.
  destruct (write_metric_Success _ _ _ _ _ _ _ _ Hwrite)
    as (filename' & st & Hname' & _ & Hu & Hdir & Hst & Hmtime & Hrec & Hsize).
  assert (filename' = filename) as -> by congruence.
  assert (Hopen : open_rdonly (set_clock w' now) filename = Ok st).
  { apply open_rdonly_Ok. by rewrite entry_set_clock. }
  rewrite (read_value_record _ _ _ _ Hopen Hsize).
  cbv zeta. unfold st_size in Hsize.
  rewrite <- (parse_ttl_take (contents st) RECORD_LEN) by layout.
  rewrite Hrec, <- parse_ttl_insert, parse_ttl_encode_record by done.
  rewrite Hmtime. cbn [clock set_clock].
  destruct (bool_decide (ttl <> 0%Z) && (ttl <? now - clock w)%Z); [done|].
  rewrite encode_record_nul.
  assert (Hdrop : drop PAYLOAD_START
            (if need_unit
             then trim_unit
                    (ttl_digits TTL_LEN (clamp_ttl ttl) []
                     ++ NUL :: (unit ++ replicate (UNIT_LEN - length unit) SP)
                     ++ LF :: value ++ replicate (PAYLOAD_LEN - length value) NUL)
             else ttl_digits TTL_LEN (clamp_ttl ttl) []
                  ++ NUL :: (unit ++ replicate (UNIT_LEN - length unit) SP)
                  ++ LF :: value ++ replicate (PAYLOAD_LEN - length value) NUL)
          = value ++ replicate (PAYLOAD_LEN - length value) NUL).
  { destruct need_unit; rewrite ?drop_payload_trim_unit, drop_payload_encoded;
      try done; by rewrite length_ttl_digits. }
  rewrite Hdrop, read_unit_encoded;
    try done; try (by rewrite length_ttl_digits).
  destruct (PAYLOAD_LEN - length value) as [|n] eqn:Hn; [lia|].
  by rewrite c_string_at_padded.
Qed.

(** X8: after a successful [write_metric] with a ttl [T] from 1 to
    [INT_MAX] (value shorter than 106 bytes, unit not ending in a space or
    newline, no NUL in either), [read_metric] gives back the value and the
    unit as long as no more than [T] seconds have passed since the write,
    and fails with [ESTALE] afterwards. *)
Theorem write_read_ttl (name_max : nat) (w w' : world)
    (asset metric value unit : bytes) (ttl now : Z) :
  write_metric name_max w asset metric value unit ttl = (Success, w') ->
  (0 < ttl < 2 ^ 31)%Z ->
  has_nul value = false -> length value < PAYLOAD_LEN ->
  has_nul unit = false ->
  (forall c, last unit = Some c -> is_pad c = false) ->
  ((now - clock w <= ttl)%Z ->
   read_metric name_max (set_clock w' now) asset metric true
   = Ok (Str value, Some unit))
  /\ ((ttl < now - clock w)%Z ->
      read_metric name_max (set_clock w' now) asset metric true = Err ESTALE).
Proof.
  intros Hwrite Httl Hvnul Hvlen Hunul Hulast.
  destruct (write_metric_Success _ _ _ _ _ _ _ _ Hwrite)
    as (filename & _ & Hname & _).
  unfold read_metric. rewrite Hname.
  rewrite (read_value_written _ _ _ _ _ _ _ _ ttl now true Hwrite Hname)
    by (done || lia).
  rewrite bool_decide_eq_true_2 by lia. cbn [andb]. split; intros H.
  - by rewrite (proj2 (Z.ltb_ge _ _)) by lia.
  - by rewrite (proj2 (Z.ltb_lt _ _)) by lia.
Qed.

Lemma write_read_ttl_witness :
  read_metric LINUX_NAME_MAX racing_world (bytes_of "a") (bytes_of "m") true
  = Err ESTALE.
Proof.
  refine (proj2 (write_read_ttl LINUX_NAME_MAX empty_world _ (bytes_of "a")
                   (bytes_of "m") (bytes_of "old") (bytes_of "u") 1 100
                   _ _ _ _ _ _) _).
  - reflexivity.
  - lia.
  - reflexivity.
  - vm_compute. lia.
  - reflexivity.
  - intros c [= <-]. reflexivity.
  - vm_compute. reflexivity.
Defined.

(** ** find_assets *)

Lemma find_assets_loop_spec (names : list bytes) (seen : gset bytes)
    (assets : list bytes) :
  (forall a, a ∈ seen <-> a ∈ assets) -> NoDup assets ->
  NoDup (find_assets_loop names seen assets)
  /\ forall a, a ∈ find_assets_loop names seen assets
       <-> a ∈ assets
           \/ exists d_name n, d_name ∈ names /\ strchr d_name ":" = Some n
                /\ a = take n d_name.
Proof.
  revert seen assets. induction names as [|d_name rest IH];
    intros seen assets Hseen Hnodup.
  - split; [done|]. intros a. split; [by left|].
    intros [H|(d & n & Hin & _)]; [done|]. by apply elem_of_nil in Hin.
  - cbn [find_assets_loop].
    destruct (strchr d_name ":") as [n|] eqn:Hn.
    + cbv zeta. destruct (decide (take n d_name ∈ seen)) as [Hin|Hin].
      * rewrite bool_decide_eq_true_2 by done.
        destruct (IH seen assets Hseen Hnodup) as [Hnd Hiff]. split; [done|].
        intros a. rewrite Hiff. split.
        -- intros [H|(d & m & Hd & Hm & ->)]; [by left|].
           right. exists d, m. by rewrite elem_of_cons; auto.
        -- intros [H|(d & m & [->|Hd]%elem_of_cons & Hm & ->)]; [by left| |].
           ++ left. apply Hseen. congruence.
           ++ right. eauto.
      * rewrite bool_decide_eq_false_2 by done.
        destruct (IH ({[take n d_name]} ∪ seen) (assets ++ [take n d_name]))
          as [Hnd Hiff].
        { intros a. rewrite elem_of_union, elem_of_singleton, elem_of_app,
            list_elem_of_singleton, Hseen. tauto. }
        { apply NoDup_app. split; [done|]. split; [|apply NoDup_singleton].
          intros a Ha ->%list_elem_of_singleton. by apply Hin, Hseen. }
        split; [done|]. intros a. rewrite Hiff, elem_of_app,
          list_elem_of_singleton. split.
        -- intros [[H| ->]|(d & m & Hd & Hm & ->)]; [by left| |].
           ++ right. exists d_name, n. by rewrite elem_of_cons; auto.
           ++ right. exists d, m. by rewrite elem_of_cons; auto.
        -- intros [H|(d & m & [->|Hd]%elem_of_cons & Hm & ->)]; [by left; left| |].
           ++ left. right. congruence.
           ++ right. eauto.
    + destruct (IH seen assets Hseen Hnodup) as [Hnd Hiff]. split; [done|].
      intros a. rewrite Hiff. split.
      * intros [H|(d & m & Hd & Hm & ->)]; [by left|].
        right. exists d, m. by rewrite elem_of_cons; auto.
      * intros [H|(d & m & [->|Hd]%elem_of_cons & Hm & ->)];
          [by left|congruence|]. right. eauto.
Qed.

Lemma elem_of_opendir (w : world) (d : gmap bytes file) (d_name : bytes) :
  root w = Some d ->
  d_name ∈ (map_to_list d).*1 <-> is_Some (entry w d_name).
Proof.
  intros Hd. unfold entry. rewrite Hd. simpl.
  rewrite list_elem_of_fmap. split.
  - intros ([k f] & -> & Hkf%elem_of_map_to_list). eauto.
  - intros [f Hf]. exists (d_name, f). split; [done|].
    by apply elem_of_map_to_list.
Qed.

(** The assets that [find_assets] finds in a directory. *)
Lemma find_assets_elem_of (w : world) (assets : list bytes) (a : bytes) :
  is_ok (opendir w) = true ->
  a ∈ snd (find_assets w assets)
  <-> exists d_name n, is_Some (entry w d_name)
        /\ strchr d_name ":" = Some n /\ a = take n d_name.
Proof.
  unfold find_assets, opendir. destruct (root w) as [d|] eqn:Hd; [|done].
  intros _. cbn [snd find_assets_loop]. cbv zeta.
  change (strchr DOT ":") with (@None nat).
  change (strchr DOTDOT ":") with (@None nat). cbv iota.
  destruct (find_assets_loop_spec (map_to_list d).*1 ∅ []) as [_ Hiff];
    [set_solver|constructor|].
  rewrite Hiff. split.
  - intros [H|(d_name & n & Hin & H)]; [by apply elem_of_nil in H|].
    exists d_name, n. by rewrite <- (elem_of_opendir w d).
  - intros (d_name & n & Hin & H). right. exists d_name, n.
    by rewrite (elem_of_opendir w d).
Qed.

(** X9: when the directory can be listed, [find_assets] returns 0 and a
    list without repetition that holds exactly the parts before the first
    colon of the entry names that have a colon. *)
Theorem find_assets_spec (w : world) (assets : list bytes) :
  is_ok (opendir w) = true ->
  fst (find_assets w assets) = 0%Z
  /\ NoDup (snd (find_assets w assets))
  /\ forall a, a ∈ snd (find_assets w assets)
       <-> exists d_name n, is_Some (entry w d_name)
             /\ strchr d_name ":" = Some n /\ a = take n d_name.
Proof.
  intros Hdir. split; [|split].
  - unfold find_assets. by destruct (opendir w).
  - unfold find_assets, opendir in *. destruct (root w) as [d|]; [|done].
    cbn [snd find_assets_loop]. cbv zeta.
    change (strchr DOT ":") with (@None nat).
    change (strchr DOTDOT ":") with (@None nat). cbv iota.
    apply find_assets_loop_spec; [set_solver|constructor].
  - intros a. by apply find_assets_elem_of.
Qed.

Lemma find_assets_spec_witness :
  NoDup (snd (find_assets foreign_world [])).
Proof.
  apply (proj1 (proj2 (find_assets_spec foreign_world [] eq_refl))).
Defined.

(** ** delete_asset *)

Lemma unlink_root (w w' : world) (name : bytes) :
  unlink w name = Ok w' -> is_ok (opendir w') = true.
Proof.
  unfold unlink, opendir. destruct (root w) as [d|]; [|done].
  destruct (d !! name); [|done]. by intros [= <-].
Qed.

Lemma delete_asset_loop_cons (d_name : bytes) (rest : list bytes)
    (asset : bytes) (err : Z) (w : world) :
  delete_asset_loop (d_name :: rest) asset err w
  = if is_entry_of asset d_name
    then match unlink w d_name with
         | Err _ => delete_asset_loop rest asset (-1)%Z w
         | Ok w' => delete_asset_loop rest asset err w'
         end
    else delete_asset_loop rest asset err w.
Proof.
  unfold is_entry_of. cbn [delete_asset_loop].
  destruct (strchr d_name ":"); [|done]. by destruct (bytes_eqb _ _).
Qed.

(** The loop of [fty_shm_delete_asset] over names without repetition whose
    entries of the asset are all there. *)
Lemma delete_asset_loop_spec (names : list bytes) (asset : bytes) (err : Z)
    (w : world) :
  NoDup names -> is_ok (opendir w) = true ->
  (forall d_name, d_name ∈ names -> is_entry_of asset d_name = true ->
     is_Some (entry w d_name)) ->
  fst (delete_asset_loop names asset err w) = err
  /\ is_ok (opendir (snd (delete_asset_loop names asset err w))) = true
  /\ clock (snd (delete_asset_loop names asset err w)) = clock w
  /\ forall m, entry (snd (delete_asset_loop names asset err w)) m
       = if decide (m ∈ names /\ is_entry_of asset m = true) then None
         else entry w m.
Proof.
  revert err w. induction names as [|d_name rest IH]; intros err w Hnd Hdir Hall.
  - repeat split; try done.
    all: intros m; rewrite decide_False; [done|]; by intros [H%elem_of_nil _].
  - apply NoDup_cons in Hnd as [Hfresh Hnd].
    rewrite delete_asset_loop_cons.
    destruct (is_entry_of asset d_name) eqn:Hd.
    + destruct (Hall d_name) as [f Hf]; [by left|done|].
      destruct (unlink_entry _ _ _ Hf) as [w1 H1]. rewrite H1.
      destruct (unlink_Ok _ _ _ H1) as [Hc1 He1].
      destruct (IH err w1 Hnd (unlink_root _ _ _ H1)) as (-> & Hdir' & -> & He).
      { intros d' Hin Hd'. rewrite He1, decide_False by (by intros ->).
        apply Hall; [by right|done]. }
      repeat split; try done. intros m. rewrite He, He1.
      destruct (decide (m = d_name)) as [->|Hne].
      * rewrite (decide_True (P := d_name ∈ d_name :: rest /\ _));
          [|split; [by left|done]].
        by destruct (decide _).
      * destruct (decide (m ∈ rest /\ _)) as [[Hin Hm]|Hno].
        -- rewrite decide_True; [done|]. split; [by right|done].
        -- rewrite decide_False; [done|].
           intros [[->|Hin]%elem_of_cons Hm]; [done|]. by apply Hno.
    + destruct (IH err w Hnd Hdir) as (-> & Hdir' & -> & He).
      { intros d' Hin Hd'. apply Hall; [by right|done]. }
      repeat split; try done. intros m. rewrite He.
      destruct (decide (m ∈ rest /\ _)) as [[Hin Hm]|Hno].
      * rewrite decide_True; [done|]. split; [by right|done].
      * rewrite decide_False; [done|].
        intros [[->|Hin]%elem_of_cons Hm]; [congruence|]. by apply Hno.
Qed.

Lemma is_entry_of_not_dots (asset : bytes) :
  is_entry_of asset DOT = false /\ is_entry_of asset DOTDOT = false.
Proof. by vm_compute. Qed.

(** What [fty_shm_delete_asset] does to a directory that can be listed. *)
Lemma delete_asset_entries (w : world) (asset : bytes) :
  is_ok (opendir w) = true ->
  fst (fty_shm_delete_asset w asset) = 0%Z
  /\ is_ok (opendir (snd (fty_shm_delete_asset w asset))) = true
  /\ clock (snd (fty_shm_delete_asset w asset)) = clock w
  /\ forall m, entry (snd (fty_shm_delete_asset w asset)) m
       = if is_entry_of asset m then None else entry w m.
Proof.
  intros Hdir. unfold fty_shm_delete_asset. pose proof Hdir as Hdir'.
  unfold opendir in Hdir' |- *. destruct (root w) as [d|] eqn:Hd; [|done].
  destruct (is_entry_of_not_dots asset) as [Hdot Hdotdot].
  rewrite !delete_asset_loop_cons, Hdot, Hdotdot.
  destruct (delete_asset_loop_spec (map_to_list d).*1 asset 0%Z w)
    as (Herr & Hok & Hclock & He).
  - apply NoDup_fst_map_to_list.
  - done.
  - intros d_name Hin _. by apply (elem_of_opendir w d).
  - unfold opendir in Hok. repeat split; try done.
    intros m. rewrite He. destruct (is_entry_of asset m) eqn:Hm.
    + destruct (decide (m ∈ (map_to_list d).*1 /\ true = true)) as [_|Hno];
        [done|].
      destruct (entry w m) as [f|] eqn:Hf; [|done].
      exfalso. apply Hno. split; [|done]. apply (elem_of_opendir w d); eauto.
    + rewrite decide_False; [done|]. by intros [_ ?].
Qed.

(** X10: in a directory that can be listed, [fty_shm_delete_asset] returns 0
    and unlinks every entry whose name, up to its first colon, is the asset;
    all other entries stay as they are, and so does the clock. *)
Theorem delete_asset_effect (w : world) (asset : bytes) :
  is_ok (opendir w) = true ->
  fst (fty_shm_delete_asset w asset) = 0%Z
  /\ clock (snd (fty_shm_delete_asset w asset)) = clock w
  /\ forall d_name,
       entry (snd (fty_shm_delete_asset w asset)) d_name
       = match strchr d_name ":" with
         | Some n =>
             if bytes_eqb (take n d_name) (c_str asset) then None
             else entry w d_name
         | None => entry w d_name
         end.
Proof.
  intros Hdir.
  destruct (delete_asset_entries w asset Hdir) as (Herr & _ & Hclock & He).
  repeat split; try done. intros d_name. rewrite He. unfold is_entry_of.
  by destruct (strchr d_name ":").
Qed.

Lemma delete_asset_effect_witness :
  fst (fty_shm_delete_asset foreign_world (bytes_of "foo")) = 0%Z.
Proof.
  apply (proj1 (delete_asset_effect foreign_world (bytes_of "foo") eq_refl)).
Defined.

Lemma is_metric_of_entry_of (asset d_name : bytes) :
  has_nul asset = false -> is_metric_of asset d_name = true ->
  is_entry_of asset d_name = true.
Proof.
  intros Ha. unfold is_metric_of, is_entry_of.
  destruct (strchr d_name ":"); [|done]. rewrite (c_str_no_nul _ Ha).
  by intros [_ ?]%andb_true_iff.
Qed.

(** X11: after [fty_shm_delete_asset] of an asset (a C string) in a directory
    that can be listed, [read_asset_metrics] on that asset returns -1 and
    leaves the map empty. *)
Theorem delete_then_read_asset_metrics (w : world) (asset : bytes)
    (metrics : gmap bytes Metric) :
  is_ok (opendir w) = true -> has_nul asset = false ->
  read_asset_metrics (snd (fty_shm_delete_asset w asset)) asset metrics
  = ((-1)%Z, ∅).
Proof.
  intros Hdir Ha.
  destruct (delete_asset_entries w asset Hdir) as (_ & Hok & _ & He).
  set (w' := snd (fty_shm_delete_asset w asset)) in *.
  unfold read_asset_metrics.
  destruct (opendir w') as [names|] eqn:Hnames; [|done]. cbv zeta.
  assert (Hex : existsb (fun d_name => is_metric_of asset d_name
                           && is_ok (read_value w' d_name true)) names = false).
  { apply not_true_is_false. intros Hex.
    apply (existsb_read_asset_metrics w' names asset Hnames) in Hex.
    destruct Hex as (d_name & [f Hf] & Hm & _).
    rewrite He, (is_metric_of_entry_of _ _ Ha Hm) in Hf. done. }
  rewrite (surjective_pairing (read_asset_metrics_loop _ _ _ _ _)).
  rewrite read_asset_metrics_loop_err, Hex.
  by rewrite read_asset_metrics_loop_none.
Qed.

Lemma delete_then_read_asset_metrics_witness :
  read_asset_metrics (snd (fty_shm_delete_asset racing_world (bytes_of "a")))
    (bytes_of "a") ∅ = ((-1)%Z, ∅).
Proof.
  apply (delete_then_read_asset_metrics racing_world (bytes_of "a") ∅);
    reflexivity.
Defined.

(** X12: after [fty_shm_delete_asset] in a directory that can be listed,
    [find_assets] finds the assets it found before, without the deleted
    one. *)
Theorem delete_then_find_assets (w : world) (asset a : bytes)
    (assets assets' : list bytes) :
  is_ok (opendir w) = true ->
  a ∈ snd (find_assets (snd (fty_shm_delete_asset w asset)) assets')
  <-> a ∈ snd (find_assets w assets) /\ a <> c_str asset.
Proof.
  intros Hdir.
  destruct (delete_asset_entries w asset Hdir) as (_ & Hok & _ & He).
  rewrite !find_assets_elem_of by done. split.
  - intros (d_name & n & [f Hf] & Hn & ->). rewrite He in Hf.
    unfold is_entry_of in Hf. rewrite Hn in Hf.
    destruct (bytes_eqb (take n d_name) (c_str asset)) eqn:Heq; [done|].
    split; [eauto 10|]. by apply bool_decide_eq_false in Heq.
  - intros [(d_name & n & [f Hf] & Hn & ->) Hne].
    exists d_name, n. split; [|done]. exists f. rewrite He.
    unfold is_entry_of, bytes_eqb. rewrite Hn.
    by rewrite (bool_decide_eq_false_2 _ Hne).
Qed.

Lemma delete_then_find_assets_witness :
  bytes_of "foo"
  ∈ snd (find_assets (snd (fty_shm_delete_asset foreign_world (bytes_of "bar"))) [])
  <-> bytes_of "foo" ∈ snd (find_assets foreign_world [])
      /\ bytes_of "foo" <> c_str (bytes_of "bar").
Proof.
  apply (delete_then_find_assets foreign_world (bytes_of "bar") (bytes_of "foo")
           [] []).
  reflexivity.
Defined.

(** ** read_asset_metrics *)

(** [emplace] keeps what the map holds. *)
Lemma read_asset_metrics_loop_keeps (w : world) (names : list bytes)
    (asset : bytes) (err : Z) (metrics : gmap bytes Metric) (k : bytes)
    (m : Metric) :
  metrics !! k = Some m ->
  snd (read_asset_metrics_loop w names asset err metrics) !! k = Some m.
Proof.
  revert err metrics. induction names as [|d_name rest IH]; intros err metrics Hk.
  - done.
  - rewrite read_asset_metrics_loop_cons.
    destruct (is_metric_of asset d_name); [|by apply IH].
    destruct (read_value w d_name true) as [[v u]|e]; [|by apply IH].
    apply IH. unfold emplace.
    destruct (metrics !! metric_key d_name) eqn:Hd; [done|].
    rewrite lookup_insert_ne; [done|]. intros <-. congruence.
Qed.

Lemma metric_key_inj (asset d1 d2 : bytes) :
  is_metric_of asset d1 = true -> is_metric_of asset d2 = true ->
  metric_key d1 = metric_key d2 -> d1 = d2.
Proof.
  intros H1%metric_name_split H2%metric_name_split Hk.
  rewrite H1, H2. by rewrite Hk.
Qed.

Lemma read_asset_metrics_loop_complete (w : world) (names : list bytes)
    (asset : bytes) (err : Z) (metrics : gmap bytes Metric) (d_name : bytes)
    (v : c_string) (u : bytes) :
  NoDup names -> d_name ∈ names ->
  is_metric_of asset d_name = true ->
  read_value w d_name true = Ok (v, Some u) ->
  metrics !! metric_key d_name = None ->
  snd (read_asset_metrics_loop w names asset err metrics) !! metric_key d_name
  = Some (mkMetric v u).
Proof.
  intros Hnd Hin Hm Hread. revert err metrics Hnd Hin.
  induction names as [|x rest IH]; intros err metrics Hnd Hin Hnone.
  - by apply elem_of_nil in Hin.
  - apply NoDup_cons in Hnd as [Hfresh Hnd].
    rewrite read_asset_metrics_loop_cons.
    apply elem_of_cons in Hin as [<-|Hin].
    + rewrite Hm, Hread. apply read_asset_metrics_loop_keeps.
      unfold emplace. rewrite Hnone. by rewrite lookup_insert_eq.
    + destruct (is_metric_of asset x) eqn:Hx; [|by apply IH].
      destruct (read_value w x true) as [[v' u']|e]; [|by apply IH].
      apply IH; [done..|]. unfold emplace.
      destruct (metrics !! metric_key x); [done|].
      rewrite lookup_insert_ne; [done|]. intros Hk.
      apply (metric_key_inj asset) in Hk; [|done..]. by subst.
Qed.

(** The metric that [read_asset_metrics] stores for an entry it can read. *)
Lemma read_asset_metrics_lookup (w : world) (asset d_name : bytes)
    (metrics : gmap bytes Metric) (v : c_string) (u : bytes) :
  is_Some (entry w d_name) ->
  is_metric_of asset d_name = true ->
  read_value w d_name true = Ok (v, Some u) ->
  fst (read_asset_metrics w asset metrics) = 0%Z
  /\ snd (read_asset_metrics w asset metrics) !! metric_key d_name
     = Some (mkMetric v u).
Proof.
  intros He Hm Hread.
  unfold read_asset_metrics. pose proof He as He'. unfold entry in He'.
  destruct (opendir w) as [names|] eqn:Hnames.
  2:{ unfold opendir in Hnames. destruct (root w); [done|by destruct He']. }
  cbv zeta. split.
  - rewrite read_asset_metrics_loop_err.
    rewrite (proj2 (existsb_read_asset_metrics w names asset Hnames)); [done|].
    exists d_name. by rewrite Hread.
  - unfold opendir in Hnames. destruct (root w) as [d|] eqn:Hd; [|done].
    injection Hnames as <-.
    destruct (is_metric_of_not_dots asset) as [Hdot Hdotdot].
    rewrite !read_asset_metrics_loop_cons, Hdot, Hdotdot.
    apply read_asset_metrics_loop_complete; try done.
    + apply NoDup_fst_map_to_list.
    + by apply (elem_of_opendir w d).
Qed.

(** X13: when an entry [asset:key.metric] is there and [read_value] reads it
    with success, [read_asset_metrics] returns 0 and the map holds under
    [key] the value and the unit that [read_value] gives. *)
Theorem read_asset_metrics_complete (w : world) (asset key : bytes)
    (metrics : gmap bytes Metric) (v : c_string) (u : bytes) :
  is_Some (entry w (asset ++ bytes_of ":" ++ key ++ METRIC_SUFFIX)) ->
  ~ In ":"%char asset ->
  read_value w (asset ++ bytes_of ":" ++ key ++ METRIC_SUFFIX) true
  = Ok (v, Some u) ->
  fst (read_asset_metrics w asset metrics) = 0%Z
  /\ snd (read_asset_metrics w asset metrics) !! key = Some (mkMetric v u).
Proof.
  intros He Hcolon Hread.
  set (d_name := asset ++ bytes_of ":" ++ key ++ METRIC_SUFFIX) in *.
  assert (Hchr : strchr d_name ":" = Some (length asset)).
  { unfold d_name. cbn [bytes_of list_ascii_of_string app].
    by apply strchr_app. }
  assert (Hsuf : has_metric_suffix d_name = true).
  { unfold d_name.
    replace (asset ++ bytes_of ":" ++ key ++ METRIC_SUFFIX)
      with ((asset ++ bytes_of ":" ++ key) ++ METRIC_SUFFIX) by (by app_norm).
    apply has_metric_suffix_app. }
  assert (Hm : is_metric_of asset d_name = true).
  { unfold is_metric_of. rewrite Hchr, Hsuf.
    pose proof (has_metric_suffix_length _ Hsuf).
    destruct (Nat.ltb_spec (length d_name) SUFFIX_LEN); [lia|].
    unfold d_name. rewrite take_app_length. unfold bytes_eqb.
    by rewrite bool_decide_eq_true_2. }
  assert (Hkey : metric_key d_name = key).
  { pose proof (metric_name_split _ _ Hm) as Hsplit. unfold d_name in Hsplit at 1.
    apply app_inv_head in Hsplit. apply app_inv_head in Hsplit.
    apply app_inv_tail in Hsplit. done. }
  rewrite <- Hkey. by apply read_asset_metrics_lookup.
Qed.

Lemma read_asset_metrics_complete_witness :
  snd (read_asset_metrics (set_clock racing_world 1) (bytes_of "a") ∅)
    !! bytes_of "m"
  = Some (mkMetric (Str (bytes_of "old")) (bytes_of "u")).
Proof.
  refine (proj2 (read_asset_metrics_complete (set_clock racing_world 1)
                   (bytes_of "a") (bytes_of "m") ∅ _ _ _ _ _)).
  - by eexists.
  - vm_compute. intros [H|[]]. discriminate H.
  - vm_compute. reflexivity.
Defined.

(** X14: after a successful [write_metric] of a metric of an asset (C
    strings; value shorter than 106 bytes, unit not ending in a space or
    newline, no NUL in either; ttl from 0 to [INT_MAX]),
    [read_asset_metrics] on the asset, before the record is stale, returns 0
    and the map holds the value and the unit under the metric. *)
Theorem write_then_read_asset_metrics (name_max : nat) (w w' : world)
    (asset metric value unit : bytes) (ttl now : Z)
    (metrics : gmap bytes Metric) :
  write_metric name_max w asset metric value unit ttl = (Success, w') ->
  has_nul asset = false -> has_nul metric = false ->
  (0 <= ttl < 2 ^ 31)%Z -> (ttl = 0 \/ now - clock w <= ttl)%Z ->
  has_nul value = false -> length value < PAYLOAD_LEN ->
  has_nul unit = false ->
  (forall c, last unit = Some c -> is_pad c = false) ->
  fst (read_asset_metrics (set_clock w' now) asset metrics) = 0%Z
  /\ snd (read_asset_metrics (set_clock w' now) asset metrics) !! metric
     = Some (mkMetric (Str value) unit).
Proof.
  intros Hwrite Ha Hm Httl Hfresh Hvnul Hvlen Hunul Hulast.
  destruct (write_metric_Success _ _ _ _ _ _ _ _ Hwrite)
    as (filename & st & Hname & _ & _ & _ & Hst & _).
  destruct (prepare_filename_decode _ _ _ _ Ha Hm Hname)
    as (Hchr & Htake & Hsuf & Hkey).
  assert (Hmetric : is_metric_of asset filename = true).
  { unfold is_metric_of. rewrite Hchr, Hsuf, Htake.
    pose proof (has_metric_suffix_length _ Hsuf).
    destruct (Nat.ltb_spec (length filename) SUFFIX_LEN); [lia|].
    unfold bytes_eqb. by rewrite bool_decide_eq_true_2. }
  rewrite <- Hkey. apply read_asset_metrics_lookup.
  - rewrite entry_set_clock. eauto.
  - done.
  - rewrite (read_value_written _ _ _ _ _ _ _ _ ttl now true Hwrite Hname)
      by done.
    destruct (decide (ttl = 0%Z)) as [->|Hne].
    + by rewrite bool_decide_eq_false_2 by (intros H; by apply H).
    + rewrite (proj2 (Z.ltb_ge _ _)) by lia. by rewrite andb_false_r.
Qed.

Lemma write_then_read_asset_metrics_witness :
  snd (read_asset_metrics
         (set_clock (snd (write_metric LINUX_NAME_MAX empty_world (bytes_of "a")
                            (bytes_of "m") (bytes_of "old") (bytes_of "u") 1)) 1)
         (bytes_of "a") ∅)
    !! bytes_of "m"
  = Some (mkMetric (Str (bytes_of "old")) (bytes_of "u")).
Proof.
  refine (proj2 (write_then_read_asset_metrics LINUX_NAME_MAX empty_world _
                   (bytes_of "a") (bytes_of "m") (bytes_of "old") (bytes_of "u")
                   1 1 ∅ _ _ _ _ _ _ _ _ _)).
  - reflexivity.
  - reflexivity.
  - reflexivity.
  - lia.
  - right. vm_compute. discriminate.
  - reflexivity.
  - vm_compute. lia.
  - reflexivity.
  - intros c [= <-]. reflexivity.
Defined.

(** ** More on cleanup *)

Lemma cleanup_examine_ext (w1 w2 : world) (d_name : bytes) :
  entry w1 d_name = entry w2 d_name -> clock w1 = clock w2 ->
  cleanup_examine w1 d_name = cleanup_examine w2 d_name.
Proof.
  intros He Hc. unfold cleanup_examine.
  assert (Hopen : match open_rdonly w1 d_name, open_rdonly w2 d_name with
                  | Ok a, Ok b => a = b
                  | Err _, Err _ => True
                  | _, _ => False
                  end).
  { destruct (open_rdonly w1 d_name) as [a|] eqn:H1.
    - apply open_rdonly_Ok in H1 as [Hdir H1]. rewrite He in H1.
      by rewrite (proj2 (open_rdonly_Ok w2 d_name a)).
    - destruct (open_rdonly w2 d_name) as [b|] eqn:H2; [|done].
      apply open_rdonly_Ok in H2 as [Hdir H2]. rewrite <- He in H2.
      by rewrite (proj2 (open_rdonly_Ok w1 d_name b)) in H1. }
  destruct (open_rdonly w1 d_name), (open_rdonly w2 d_name); try done.
  subst. by rewrite Hc.
Qed.

Lemma cleanup_examine_no_suffix (w : world) (d_name : bytes) :
  has_metric_suffix d_name = false -> cleanup_examine w d_name = Keep.
Proof.
  intros H. unfold cleanup_examine. rewrite H. by destruct (_ <? _).
Qed.

Lemma cleanup_examine_Expired_entry (w : world) (d_name : bytes) (st1 : file) :
  cleanup_examine w d_name = Expired st1 -> entry w d_name = Some st1.
Proof.
  unfold cleanup_examine. destruct (_ <? _); [done|].
  destruct (negb _); [done|].
  destruct (open_rdonly w d_name) as [st|] eqn:Hopen; [|done].
  apply open_rdonly_Ok in Hopen as [_ Hst].
  destruct (_ <? _); [done|]. destruct (read_buf _ _); [|done].
  destruct (parse_ttl _); [|done]. destruct (bool_decide _); [done|].
  destruct (_ <=? _)%Z; [done|]. by intros [= <-].
Qed.

(** Alone, an iteration on an entry that is there unlinks it when the
    examination finds it expired and leaves it otherwise; [err] becomes -1
    exactly when the examination fails. *)
Lemma cleanup_entry_quiet_self (w : world) (d_name : bytes) (err : Z) :
  fst (cleanup_entry quiet d_name err w)
  = match cleanup_examine w d_name with Broken => (-1)%Z | _ => err end
  /\ entry (snd (cleanup_entry quiet d_name err w)) d_name
     = match cleanup_examine w d_name with
       | Expired _ => None
       | _ => entry w d_name
       end.
Proof.
  unfold cleanup_entry.
  destruct (cleanup_examine w d_name) as [| |st1] eqn:Hex; [done..|].
  pose proof (cleanup_examine_Expired_entry _ _ _ Hex) as Hst.
  destruct (has_metric_suffix_name _ (cleanup_examine_Expired _ _ _ Hex))
    as (_ & Hdel & _).
  by destruct (cleanup_remove_quiet_self d_name st1 err w Hdel Hst) as [-> ->].
Qed.

(** Alone, the loop over names without repetition examines every entry as
    it was when the scan began. *)
Lemma cleanup_loop_quiet_spec (names : list bytes) (err : Z) (w : world) :
  NoDup names ->
  fst (cleanup_loop quiet names err w)
  = (if existsb (fun d => match cleanup_examine w d with
                          | Broken => true | _ => false end) names
     then (-1)%Z else err)
  /\ forall m, m ∈ names -> m <> DELETE ->
       entry (snd (cleanup_loop quiet names err w)) m
       = match cleanup_examine w m with
         | Expired _ => None
         | _ => entry w m
         end.
Proof.
  revert err w. induction names as [|d rest IH]; intros err w Hnd.
  - split; [done|]. intros m Hm. by apply elem_of_nil in Hm.
  - apply NoDup_cons in Hnd as [Hfresh Hnd]. cbn [cleanup_loop existsb].
    destruct (cleanup_entry_quiet_self w d err) as [Herr Hself].
    destruct (cleanup_entry quiet d err w) as [err1 w1] eqn:H1.
    cbn [fst snd] in Herr, Hself.
    assert (Hother : forall m, m <> d -> m <> DELETE ->
              clock w1 = clock w /\ entry w1 m = entry w m).
    { intros m Hm Hdel.
      pose proof (cleanup_entry_quiet_other d err w m Hm Hdel) as H.
      by rewrite H1 in H. }
    assert (Hexam : forall m, m ∈ rest ->
              cleanup_examine w1 m = cleanup_examine w m).
    { intros m Hm. destruct (decide (m = DELETE)) as [->|Hdel].
      - by rewrite !cleanup_examine_no_suffix.
      - destruct (Hother m) as [Hc He]; [by intros ->|done|].
        by apply cleanup_examine_ext. }
    destruct (IH err1 w1 Hnd) as [Hfst Hentries]. split.
    + rewrite Hfst.
      assert (Hex : existsb (fun d0 => match cleanup_examine w1 d0 with
                                       | Broken => true | _ => false end) rest
                    = existsb (fun d0 => match cleanup_examine w d0 with
                                         | Broken => true | _ => false end) rest).
      { clear -Hexam. induction rest as [|x rest IH]; [done|]. cbn [existsb].
        rewrite Hexam by (by left). rewrite IH; [done|].
        intros m Hm. apply Hexam. by right. }
      rewrite Hex, Herr.
      match goal with |- context [orb _ ?e] => destruct e end;
        by destruct (cleanup_examine w d).
    + intros m [->|Hm]%elem_of_cons Hdel.
      * destruct (cleanup_loop_quiet_other rest err1 w1 d) as [_ ->];
          [by rewrite <- list_elem_of_In|done|done].
      * rewrite Hentries, Hexam by done.
        destruct (Hother m) as [_ ->]; [by intros ->|done|done].
Qed.

Lemma cleanup_entry_dots (env : interference) (err : Z) (w : world) :
  cleanup_entry env DOT err w = (err, w)
  /\ cleanup_entry env DOTDOT err w = (err, w).
Proof. done. Qed.

(** Alone, [fty_shm_cleanup] on a directory that can be listed. *)
Lemma cleanup_quiet_spec (w : world) :
  is_ok (opendir w) = true ->
  (fst (fty_shm_cleanup quiet w) = (-1)%Z
   <-> exists m, is_Some (entry w m) /\ cleanup_examine w m = Broken)
  /\ (fst (fty_shm_cleanup quiet w) = 0%Z
      \/ fst (fty_shm_cleanup quiet w) = (-1)%Z)
  /\ forall m, is_Some (entry w m) -> m <> DELETE ->
       entry (snd (fty_shm_cleanup quiet w)) m
       = match cleanup_examine w m with
         | Expired _ => None
         | _ => entry w m
         end.
Proof.
  unfold fty_shm_cleanup, opendir. destruct (root w) as [d|] eqn:Hd; [|done].
  intros _. cbn [cleanup_loop].
  destruct (cleanup_entry_dots quiet 0 w) as [-> ->].
  destruct (cleanup_loop_quiet_spec (map_to_list d).*1 0 w
              (NoDup_fst_map_to_list d)) as [Hfst Hentries].
  rewrite Hfst. split; [|split].
  - destruct (existsb _ _) eqn:Hex.
    + split; [|done]. intros _. apply existsb_exists in Hex as (m & Hin & Hm).
      exists m. split.
      * by apply (elem_of_opendir w d), list_elem_of_In.
      * by destruct (cleanup_examine w m).
    + split; [done|]. intros (m & Hin & Hm).
      assert (existsb (fun d0 => match cleanup_examine w d0 with
                                 | Broken => true | _ => false end)
                (map_to_list d).*1 = true); [|congruence].
      apply existsb_exists. exists m. split; [|by rewrite Hm].
      by apply list_elem_of_In, (elem_of_opendir w d).
  - destruct (existsb _ _); auto.
  - intros m Hm Hdel. apply Hentries; [|done].
    by apply (elem_of_opendir w d).
Qed.

Lemma cleanup_examine_Broken (w : world) (d_name : bytes) (st : file) :
  entry w d_name = Some st ->
  cleanup_examine w d_name = Broken
  <-> has_metric_suffix d_name = true /\ PAYLOAD_START <= st_size st
      /\ is_ok (parse_ttl (contents st)) = false.
Proof.
  intros Hst. unfold cleanup_examine.
  destruct (has_metric_suffix d_name) eqn:Hsuf; cbn [negb].
  2:{ destruct (_ <? _); split; try done; by intros [? _]. }
  pose proof (has_metric_suffix_length _ Hsuf) as Hlen.
  destruct (has_metric_suffix_name _ Hsuf) as (Hdir & _).
  destruct (Nat.ltb_spec (length d_name) SUFFIX_LEN) as [?|_]; [lia|].
  rewrite (proj2 (open_rdonly_Ok w d_name st)) by done.
  destruct (Nat.ltb_spec (st_size st) PAYLOAD_START) as [?|Hsize].
  { split; [done|]. intros (_ & ? & _). lia. }
  unfold read_buf.
  destruct (Nat.ltb_spec (st_size st) (TTL_LEN + 1)) as [?|_]; [layout|].
  unfold st_size in Hsize. rewrite parse_ttl_take by layout.
  destruct (parse_ttl (contents st)) as [ttl|e]; cbn [is_ok].
  - destruct (bool_decide _); [|destruct (_ <=? _)%Z];
      (split; [done|by intros (_ & _ & ?)]).
  - done.
Qed.

(** X15: alone, [fty_shm_cleanup] leaves as they are the entries, other than
    [.delete], whose name does not end in [.metric], the files shorter than
    22 bytes and the files whose TTL field [parse_ttl] rejects. *)
Theorem cleanup_keeps_other_entries (w : world) (d_name : bytes) (st : file) :
  entry w d_name = Some st -> d_name <> DELETE ->
  has_metric_suffix d_name = false \/ st_size st < PAYLOAD_START
  \/ is_ok (parse_ttl (contents st)) = false ->
  entry (snd (fty_shm_cleanup quiet w)) d_name = Some st.
Proof.
  intros Hst Hdel Hcase.
  assert (Hdir : is_ok (opendir w) = true).
  { unfold opendir, entry in *. by destruct (root w). }
  destruct (cleanup_quiet_spec w Hdir) as (_ & _ & He).
  rewrite He by eauto. rewrite Hst.
  destruct (cleanup_examine w d_name) as [| |st1] eqn:Hex; [done..|].
  exfalso. pose proof (cleanup_examine_Expired _ _ _ Hex) as Hsuf.
  destruct Hcase as [?|[Hsmall|Hbad]]; [congruence| |].
  - revert Hex. unfold cleanup_examine. rewrite Hsuf.
    destruct (_ <? _); [done|]. cbn [negb].
    destruct (has_metric_suffix_name _ Hsuf) as (Hdirname & _).
    rewrite (proj2 (open_rdonly_Ok w d_name st)) by done.
    by destruct (Nat.ltb_spec (st_size st) PAYLOAD_START) as [_|?]; [|lia].
  - destruct (Nat.lt_ge_cases (st_size st) PAYLOAD_START) as [Hsmall|Hsize].
    + revert Hex. unfold cleanup_examine. rewrite Hsuf.
      destruct (_ <? _); [done|]. cbn [negb].
      destruct (has_metric_suffix_name _ Hsuf) as (Hdirname & _).
      rewrite (proj2 (open_rdonly_Ok w d_name st)) by done.
      by destruct (Nat.ltb_spec (st_size st) PAYLOAD_START) as [_|?]; [|lia].
    + assert (cleanup_examine w d_name = Broken); [|congruence].
      by apply (cleanup_examine_Broken w d_name st).
Qed.

Lemma cleanup_keeps_other_entries_witness :
  entry (snd (fty_shm_cleanup quiet foreign_world)) (bytes_of "foo:bar")
  = Some (File 0 1 0 (bytes_of "x")).
Proof.
  apply (cleanup_keeps_other_entries foreign_world (bytes_of "foo:bar")).
  - reflexivity.
  - discriminate.
  - left. reflexivity.
Defined.

(** X16: alone, on a directory that can be listed, [fty_shm_cleanup] returns
    0 or -1, and -1 exactly when some entry named [....metric] of at least 22
    bytes has a TTL field that [parse_ttl] rejects. *)
Theorem cleanup_return_value (w : world) :
  is_ok (opendir w) = true ->
  (fst (fty_shm_cleanup quiet w) = 0%Z \/ fst (fty_shm_cleanup quiet w) = (-1)%Z)
  /\ (fst (fty_shm_cleanup quiet w) = (-1)%Z
      <-> exists d_name st,
            entry w d_name = Some st /\ has_metric_suffix d_name = true
            /\ PAYLOAD_START <= st_size st
            /\ is_ok (parse_ttl (contents st)) = false).
Proof.
  intros Hdir. destruct (cleanup_quiet_spec w Hdir) as (Hiff & Hval & _).
  split; [done|]. rewrite Hiff. split.
  - intros (m & [st Hst] & Hm). exists m, st. split; [done|].
    by apply (cleanup_examine_Broken w m st).
  - intros (m & st & Hst & H). exists m. split; [eauto|].
    by apply (cleanup_examine_Broken w m st).
Qed.

Lemma cleanup_return_value_witness :
  fst (fty_shm_cleanup quiet foreign_world) = 0%Z
  \/ fst (fty_shm_cleanup quiet foreign_world) = (-1)%Z.
Proof. apply (proj1 (cleanup_return_value foreign_world eq_refl)). Defined.

(** X17: when cleanup finds under [.delete] a file that is not the one it
    examined and the name is free at the time of [rename_noreplace], the
    file is moved back under its name, [.delete] is gone, the other entries
    are as that call found them and [err] is as it was. *)
Theorem lost_race_restores (env : interference) (w w2 : world)
    (d_name : bytes) (st1 st2 f : file) (err : Z) :
  cleanup_examine w d_name = Expired st1 ->
  renameat (env d_name 0 w) d_name DELETE = Ok w2 ->
  fstatat (env d_name 1 w2) DELETE = Ok st2 ->
  ~ (st_dev st1 = st_dev st2 /\ st_ino st1 = st_ino st2) ->
  entry (env d_name 2 (env d_name 1 w2)) DELETE = Some f ->
  entry (env d_name 2 (env d_name 1 w2)) d_name = None ->
  fst (cleanup_entry env d_name err w) = err
  /\ entry (snd (cleanup_entry env d_name err w)) d_name = Some f
  /\ entry (snd (cleanup_entry env d_name err w)) DELETE = None
  /\ forall m, m <> d_name -> m <> DELETE ->
       entry (snd (cleanup_entry env d_name err w)) m
       = entry (env d_name 2 (env d_name 1 w2)) m.
Proof.
  intros Hexp Hren Hstat Hids Hf Hfree.
  destruct (has_metric_suffix_name _ (cleanup_examine_Expired _ _ _ Hexp))
    as (_ & Hdel & _).
  unfold cleanup_entry. rewrite Hexp. unfold cleanup_remove.
  rewrite Hren, Hstat.
  assert (Hb : bool_decide (st_dev st1 = st_dev st2)
               && bool_decide (st_ino st1 = st_ino st2) = false).
  { apply andb_false_iff.
    destruct (decide (st_dev st1 = st_dev st2)) as [?|?];
      [right|left]; apply bool_decide_eq_false_2; tauto. }
  rewrite Hb. unfold restore.
  set (w4 := env d_name 2 (env d_name 1 w2)) in *.
  destruct (rename_noreplace w4 DELETE d_name) as [w5|e] eqn:H5.
  - destruct (rename_noreplace_Ok _ _ _ _ H5) as [_ He5]. cbn [fst snd].
    rewrite !He5. repeat split.
    + by rewrite decide_True.
    + rewrite decide_False by (by intros <-). by rewrite decide_True.
    + intros m Hm Hmd. rewrite He5. by entry_cases.
  - exfalso. revert H5. unfold rename_noreplace, entry in *.
    destruct (root w4) as [d|]; [|done]. simpl in Hf, Hfree.
    by rewrite Hf, Hfree.
Qed.

Lemma lost_race_restores_witness :
  fst (cleanup_entry early_writer (bytes_of "a:m.metric") 0 racing_world) = 0%Z.
Proof.
  refine (proj1 (lost_race_restores early_writer racing_world _
                   (bytes_of "a:m.metric") _ _ _ 0 _ _ _ _ _ _)).
  - vm_compute. reflexivity.
  - vm_compute. reflexivity.
  - vm_compute. reflexivity.
  - vm_compute. intros [_ H]. discriminate H.
  - vm_compute. reflexivity.
  - vm_compute. reflexivity.
Defined.

(** ** Without the directory *)

(** X18: when [shm_dir] cannot be opened, the four scans return -1;
    [find_assets] and [read_asset_metrics] leave the container of the caller
    as it was, and [write_metric] and [read_metric] on an accepted name fail
    with [ENOENT]. *)
Theorem no_directory (name_max : nat) (w : world) (asset metric value unit : bytes)
    (ttl : Z) (need_unit : bool) (assets : list bytes)
    (metrics : gmap bytes Metric) (env : interference) :
  root w = None ->
  find_assets w assets = ((-1)%Z, assets)
  /\ read_asset_metrics w asset metrics = ((-1)%Z, metrics)
  /\ fty_shm_delete_asset w asset = ((-1)%Z, w)
  /\ fty_shm_cleanup env w = ((-1)%Z, w)
  /\ (is_ok (prepare_filename name_max asset metric) = true ->
      read_metric name_max w asset metric need_unit = Err ENOENT
      /\ (length value <= PAYLOAD_LEN -> length unit <= UNIT_LEN ->
          write_metric name_max w asset metric value unit ttl
          = (Failure ENOENT, w))).
Proof.
  intros Hroot.
  unfold find_assets, read_asset_metrics, fty_shm_delete_asset,
    fty_shm_cleanup, opendir. rewrite Hroot. repeat split.
  - unfold read_metric. destruct (prepare_filename _ _ _); [|done].
    unfold read_value, open_rdonly. by rewrite Hroot.
  - intros Hv Hu. unfold write_metric.
    destruct (prepare_filename _ _ _); [|done].
    unfold write_value, open_creat. rewrite Hroot.
    destruct (Nat.ltb_spec PAYLOAD_LEN (length value)); [lia|].
    by destruct (Nat.ltb_spec UNIT_LEN (length unit)); [lia|].
Qed.

Lemma no_directory_witness :
  find_assets no_shm_dir [bytes_of "kept"] = ((-1)%Z, [bytes_of "kept"]).
Proof.
  apply (proj1 (no_directory LINUX_NAME_MAX no_shm_dir [] [] [] [] 0 true
                  [bytes_of "kept"] ∅ quiet eq_refl)).
Defined.

(** ** The size of file names *)

(** X19: after a [fty_shm_set_test_dir] that succeeds, a call of
    [prepare_filename] that succeeds writes at most [PATH_MAX + 1] bytes to
    its buffer, the final NUL among them: [PATH_MAX] bytes or fewer unless
    the directory and the entry name both have the greatest length that is
    accepted. *)
Theorem filename_size_bound (PATH_MAX NAME_MAX : nat)
    (shm_dir dir shm_dir' asset metric filename : bytes) :
  1 + NAME_MAX <= PATH_MAX ->
  fty_shm_set_test_dir PATH_MAX NAME_MAX shm_dir dir = (Success, shm_dir') ->
  prepare_filename NAME_MAX asset metric = Ok filename ->
  filename_size shm_dir' asset metric <= PATH_MAX + 1
  /\ (filename_size shm_dir' asset metric = PATH_MAX + 1
      <-> length shm_dir' = PATH_MAX - 1 - NAME_MAX
          /\ length asset + 1 + length metric + SUFFIX_LEN = NAME_MAX).
Proof.
  intros Hmax. unfold fty_shm_set_test_dir, prepare_filename, filename_size.
  cbn [bytes_of list_ascii_of_string length].
  destruct (Nat.ltb_spec (PATH_MAX - 1 - NAME_MAX) (length (c_str dir)))
    as [?|Hdir]; [done|]. intros [= <-].
  destruct (Nat.ltb_spec NAME_MAX
              (length asset + 1 + length metric + SUFFIX_LEN)) as [?|Hname];
    [done|]. intros _. lia.
Qed.

Lemma filename_size_bound_witness :
  filename_size (replicate 3840 "d"%char) (replicate 246 "a"%char)
    (bytes_of "m") <= 4096 + 1.
Proof.
  refine (proj1 (filename_size_bound 4096 LINUX_NAME_MAX [] (replicate 3840 "d"%char)
                   _ (replicate 246 "a"%char) (bytes_of "m") _ _ _ _)).
  - vm_compute. lia.
  - vm_compute. reflexivity.
  - vm_compute. reflexivity.
Defined.
